(** * shop.unigoods.im: the bounce-page generator ([main.go])

    A shallow embedding of the generator's pure pipeline: route-key
    normalisation ([cleanRoutePath]), Open Graph extraction over a parsed
    document ([parseOGHTML]), image URL resolution ([absolutize]), the
    defaulting step of [main]'s route loop, and the page renderer
    ([buildHTML]); and of the run itself, from [loadConfig] to the last
    file written, with [must] ending it at the first call that fails.

    Go strings are byte sequences: they are modelled as [string], whose
    characters are the 256 bytes.  The standard-library functions the
    program calls are modelled next to it, in modules named after their Go
    packages. *)

From Stdlib Require Import String Ascii List ZArith NArith Bool Lia.
Import ListNotations.

Local Open Scope list_scope.
Local Open Scope string_scope.

(** ** Bytes and slices *)

(** The double quote, which cannot be written inside a string literal. *)
Definition dq : string := String "034"%char EmptyString.

(** The line feed of the raw template literal. *)
Definition nl : string := String "010"%char EmptyString.

Definition byte_in (lo hi : N) (c : ascii) : bool :=
  (lo <=? N_of_ascii c)%N && (N_of_ascii c <=? hi)%N.

Definition byte_is (n : N) (c : ascii) : bool := (N_of_ascii c =? n)%N.

Definition len (s : string) : Z := Z.of_nat (String.length s).

(** [s[lo:hi]], [s[lo:]] and [s[:hi]] on Go's [int] indices. *)
Definition slice (s : string) (lo hi : Z) : string :=
  substring (Z.to_nat lo) (Z.to_nat (hi - lo)) s.

Definition slice_from (s : string) (lo : Z) : string := slice s lo (len s).

Definition slice_to (s : string) (hi : Z) : string := slice s 0 hi.

(** [c] is one of the bytes of [set]. *)
Fixpoint among (set : string) (c : ascii) : bool :=
  match set with
  | EmptyString => false
  | String a set' => Ascii.eqb a c || among set' c
  end.

Fixpoint all_bytes (p : ascii -> bool) (s : string) : bool :=
  match s with
  | EmptyString => true
  | String c s' => p c && all_bytes p s'
  end.

Fixpoint map_bytes (f : ascii -> ascii) (s : string) : string :=
  match s with
  | EmptyString => EmptyString
  | String c s' => String (f c) (map_bytes f s')
  end.

(** ** The Unicode tables

    [strings.ToLower] and [strings.EqualFold] work on bytes as long as their
    arguments are ASCII and consult the Unicode case tables from the first
    byte [>= 0x80] on.  The tables are not part of the program: the two
    table-driven continuations are parameters of the model. *)
Class UnicodeTables : Type := {
  (** [strings.Map(unicode.ToLower, s)], called on a string that holds a
      byte [>= 0x80]. *)
  mapToLower : string -> string;
  (** The rune-by-rune comparison [strings.EqualFold] jumps to
      ([hasUnicode]) with the two unread tails. *)
  foldTails : string -> string -> bool
}.

(** ** Package [strings] *)
Module strings.

(** [len(s) >= len(prefix) && s[:len(prefix)] == prefix] *)
Definition HasPrefix (s prefix : string) : bool :=
  (len prefix <=? len s)%Z && (slice_to s (len prefix) =? prefix).

(** [len(s) >= len(suffix) && s[len(s)-len(suffix):] == suffix] *)
Definition HasSuffix (s suffix : string) : bool :=
  (len suffix <=? len s)%Z && (slice_from s (len s - len suffix) =? suffix).

Definition TrimPrefix (s prefix : string) : string :=
  if HasPrefix s prefix then slice_from s (len prefix) else s.

Definition TrimSuffix (s suffix : string) : string :=
  if HasSuffix s suffix then slice_to s (len s - len suffix) else s.

(** [Index] returns [-1] when [substr] does not occur. *)
Fixpoint index_from (i : Z) (s substr : string) : Z :=
  if String.prefix substr s then i
  else match s with
       | EmptyString => (-1)%Z
       | String _ s' => index_from (i + 1) s' substr
       end.

Definition Index (s substr : string) : Z := index_from 0 s substr.

Fixpoint last_index_from (i : Z) (s substr : string) : Z :=
  match s with
  | EmptyString => if String.prefix substr s then i else (-1)%Z
  | String _ s' =>
      let later := last_index_from (i + 1) s' substr in
      if (0 <=? later)%Z then later
      else if String.prefix substr s then i else (-1)%Z
  end.

Definition LastIndex (s substr : string) : Z := last_index_from 0 s substr.

Definition Contains (s substr : string) : bool := (0 <=? Index s substr)%Z.

(** [Cut] slices [s] around the first instance of [sep]. *)
Definition Cut (s sep : string) : string * string * bool :=
  let i := Index s sep in
  if (0 <=? i)%Z then (slice_to s i, slice_from s (i + len sep), true)
  else (s, EmptyString, false).

(** [Count] of a one-byte separator: the number of its occurrences. *)
Fixpoint CountByte (s : string) (c : ascii) : Z :=
  match s with
  | EmptyString => 0%Z
  | String a s' => ((if Ascii.eqb a c then 1 else 0) + CountByte s' c)%Z
  end.

Definition isUpper (c : ascii) : bool := byte_in 65 90 c.

Definition lowerByte (c : ascii) : ascii :=
  if isUpper c then ascii_of_N (N_of_ascii c + 32) else c.

Definition isASCII (s : string) : bool := all_bytes (byte_in 0 127) s.

(** [ToLower]: the ASCII path of the library is written out; a string
    with a byte [>= 0x80] goes through the Unicode tables. *)
Definition ToLower `{UnicodeTables} (s : string) : string :=
  if isASCII s then map_bytes lowerByte s else mapToLower s.

(** [EqualFold]: the byte loop of the library up to the first byte
    [>= 0x80] of either string, where the tables take over. *)
Fixpoint EqualFold `{UnicodeTables} (s t : string) : bool :=
  match s, t with
  | String sr s', String tr t' =>
      if negb (byte_in 0 127 sr && byte_in 0 127 tr) then foldTails s t
      else if Ascii.eqb tr sr then EqualFold s' t'
      else
        let lo := if (N_of_ascii tr <? N_of_ascii sr)%N then tr else sr in
        let hi := if (N_of_ascii tr <? N_of_ascii sr)%N then sr else tr in
        if isUpper lo && (N_of_ascii hi =? N_of_ascii lo + 32)%N
        then EqualFold s' t'
        else false
  | EmptyString, EmptyString => true
  | _, _ => false
  end.

(** *** [TrimSpace]

    The white space of [unicode.IsSpace], recognised by its UTF-8
    encodings: the six ASCII characters, U+0085 and U+00A0 (two bytes),
    and U+1680, U+2000..U+200A, U+2028, U+2029, U+202F, U+205F and U+3000
    (three bytes).  The decoder of the library accepts the shortest
    encoding of a rune only, so that a byte sequence that is not one of
    these encodings decodes to another rune or to [RuneError], which is no
    space; and no encoding of a space starts with a continuation byte, so
    that reading a rune backwards from the end, as [TrimRightFunc] does,
    finds a space exactly when the string ends with one of them. *)
Definition asciiSpace (a : ascii) : bool :=
  byte_in 9 13 a || byte_is 32 a.

Definition space2 (a b : ascii) : bool :=
  byte_is 194 a && (byte_is 133 b || byte_is 160 b).

Definition space3 (a b c : ascii) : bool :=
  (byte_is 225 a && byte_is 154 b && byte_is 128 c)
  || (byte_is 226 a && byte_is 128 b
      && (byte_in 128 138 c || byte_is 168 c || byte_is 169 c || byte_is 175 c))
  || (byte_is 226 a && byte_is 129 b && byte_is 159 c)
  || (byte_is 227 a && byte_is 128 b && byte_is 128 c).

(** [TrimLeftFunc(s, unicode.IsSpace)] *)
Fixpoint trimLeft (s : list ascii) : list ascii :=
  match s with
  | [] => []
  | a :: s1 =>
      if asciiSpace a then trimLeft s1
      else match s1 with
           | [] => s
           | b :: s2 =>
               if space2 a b then trimLeft s2
               else match s2 with
                    | [] => s
                    | c :: s3 => if space3 a b c then trimLeft s3 else s
                    end
           end
  end.

(** [TrimRightFunc(s, unicode.IsSpace)], on the reversed bytes. *)
Fixpoint trimRightRev (s : list ascii) : list ascii :=
  match s with
  | [] => []
  | a :: s1 =>
      if asciiSpace a then trimRightRev s1
      else match s1 with
           | [] => s
           | b :: s2 =>
               if space2 b a then trimRightRev s2
               else match s2 with
                    | [] => s
                    | c :: s3 => if space3 c b a then trimRightRev s3 else s
                    end
           end
  end.

Definition TrimSpace (s : string) : string :=
  string_of_list_ascii
    (rev (trimRightRev (rev (trimLeft (list_ascii_of_string s))))).

End strings.

(** ** Errors

    The program only tests an [error] against [nil]; the model keeps the
    three kinds [net/url] builds, with the texts of the errors abridged
    and without the [url.Error] that [Parse] wraps them in. *)
Inductive error : Type :=
| EscapeError (s : string)
| InvalidHostError (s : string)
| errorString (msg : string).

Inductive result (A : Type) : Type :=
| Ok (a : A)
| Err (e : error).
Arguments Ok {A} a.
Arguments Err {A} e.

(** ** Package [net/url]

    [Parse] and the methods [IsAbs], [String] and [ResolveReference] of [URL],
    with the functions they rest on, after the library's source (as of
    Go 1.22). *)
Module url.

Inductive encoding : Type :=
| encodePath
| encodePathSegment
| encodeHost
| encodeZone
| encodeUserPassword
| encodeQueryComponent
| encodeFragment.

Definition encoding_eqb (a b : encoding) : bool :=
  match a, b with
  | encodePath, encodePath | encodePathSegment, encodePathSegment
  | encodeHost, encodeHost | encodeZone, encodeZone
  | encodeUserPassword, encodeUserPassword
  | encodeQueryComponent, encodeQueryComponent
  | encodeFragment, encodeFragment => true
  | _, _ => false
  end.

Record Userinfo : Type := {
  username : string;
  password : string;
  passwordSet : bool
}.

Record URL : Type := mkURL {
  Scheme : string;
  Opaque : string;
  User : option Userinfo;
  Host : string;
  Path : string;
  RawPath : string;
  OmitHost : bool;
  ForceQuery : bool;
  RawQuery : string;
  Fragment : string;
  RawFragment : string
}.

Definition emptyURL : URL :=
  mkURL EmptyString EmptyString None EmptyString EmptyString EmptyString
        false false EmptyString EmptyString EmptyString.

Definition setScheme (v : string) (u : URL) : URL :=
  mkURL v (Opaque u) (User u) (Host u) (Path u) (RawPath u) (OmitHost u)
        (ForceQuery u) (RawQuery u) (Fragment u) (RawFragment u).
Definition setOpaque (v : string) (u : URL) : URL :=
  mkURL (Scheme u) v (User u) (Host u) (Path u) (RawPath u) (OmitHost u)
        (ForceQuery u) (RawQuery u) (Fragment u) (RawFragment u).
Definition setUser (v : option Userinfo) (u : URL) : URL :=
  mkURL (Scheme u) (Opaque u) v (Host u) (Path u) (RawPath u) (OmitHost u)
        (ForceQuery u) (RawQuery u) (Fragment u) (RawFragment u).
Definition setHost (v : string) (u : URL) : URL :=
  mkURL (Scheme u) (Opaque u) (User u) v (Path u) (RawPath u) (OmitHost u)
        (ForceQuery u) (RawQuery u) (Fragment u) (RawFragment u).
Definition setPathFields (path rawPath : string) (u : URL) : URL :=
  mkURL (Scheme u) (Opaque u) (User u) (Host u) path rawPath (OmitHost u)
        (ForceQuery u) (RawQuery u) (Fragment u) (RawFragment u).
Definition setOmitHost (v : bool) (u : URL) : URL :=
  mkURL (Scheme u) (Opaque u) (User u) (Host u) (Path u) (RawPath u) v
        (ForceQuery u) (RawQuery u) (Fragment u) (RawFragment u).
Definition setQuery (force : bool) (raw : string) (u : URL) : URL :=
  mkURL (Scheme u) (Opaque u) (User u) (Host u) (Path u) (RawPath u)
        (OmitHost u) force raw (Fragment u) (RawFragment u).
Definition setRawQuery (v : string) (u : URL) : URL :=
  setQuery (ForceQuery u) v u.
Definition setFragmentFields (frag rawFrag : string) (u : URL) : URL :=
  mkURL (Scheme u) (Opaque u) (User u) (Host u) (Path u) (RawPath u)
        (OmitHost u) (ForceQuery u) (RawQuery u) frag rawFrag.

Definition nonEmpty (s : string) : bool := negb (s =? EmptyString).

Definition isSome {A : Type} (o : option A) : bool :=
  match o with Some _ => true | None => false end.

Definition isAlpha (c : ascii) : bool := byte_in 97 122 c || byte_in 65 90 c.
Definition isDigit (c : ascii) : bool := byte_in 48 57 c.

Definition ishex (c : ascii) : bool :=
  isDigit c || byte_in 97 102 c || byte_in 65 70 c.

Definition unhex (c : ascii) : N :=
  if isDigit c then N_of_ascii c - 48
  else if byte_in 97 102 c then N_of_ascii c - 97 + 10
  else if byte_in 65 70 c then N_of_ascii c - 65 + 10
  else 0.

Definition shouldEscape (c : ascii) (mode : encoding) : bool :=
  if isAlpha c || isDigit c then false
  else if (encoding_eqb mode encodeHost || encoding_eqb mode encodeZone)
          && (among "!$&'()*+,;=:[]<>" c || byte_is 34 c) then false
  else if among "-_.~" c then false
  else if among "$&+,/:;=?@" c then
    match mode with
    | encodePath => Ascii.eqb c "?"
    | encodePathSegment => among "/;,?" c
    | encodeUserPassword => among "@/?:" c
    | encodeQueryComponent => true
    | encodeFragment => false
    | encodeHost | encodeZone => true
    end
  else if encoding_eqb mode encodeFragment && among "!()*" c then false
  else true.

(** The first three bytes of [s] at most: the text of an [EscapeError]. *)
Definition upTo3 (s : string) : string := substring 0 3 s.

(** The first loop of [unescape]: the escapes are well formed and, in a
    host, every byte is allowed.  [None] when nothing is wrong. *)
Fixpoint checkEscapes (s : string) (mode : encoding) : option error :=
  match s with
  | EmptyString => None
  | String c s1 =>
      if Ascii.eqb c "%" then
        match s1 with
        | String h1 (String h2 s3) =>
            if negb (ishex h1 && ishex h2) then Some (EscapeError (upTo3 s))
            else
              let esc := upTo3 s in
              let v := ascii_of_N (unhex h1 * 16 + unhex h2) in
              if encoding_eqb mode encodeHost && (unhex h1 <? 8)%N
                 && negb (esc =? "%25")
              then Some (EscapeError esc)
              else if encoding_eqb mode encodeZone && negb (esc =? "%25")
                      && negb (Ascii.eqb v " ") && shouldEscape v encodeHost
              then Some (EscapeError esc)
              else checkEscapes s3 mode
        | _ => Some (EscapeError (upTo3 s))
        end
      else if Ascii.eqb c "+" then checkEscapes s1 mode
      else if (encoding_eqb mode encodeHost || encoding_eqb mode encodeZone)
              && byte_in 0 127 c && shouldEscape c encodeHost
      then Some (InvalidHostError (String c EmptyString))
      else checkEscapes s1 mode
  end.

(** The second loop of [unescape], on a string the first loop accepted. *)
Fixpoint decodeEscapes (s : string) (mode : encoding) : string :=
  match s with
  | EmptyString => EmptyString
  | String c s1 =>
      if Ascii.eqb c "%" then
        match s1 with
        | String h1 (String h2 s3) =>
            String (ascii_of_N (unhex h1 * 16 + unhex h2))
                   (decodeEscapes s3 mode)
        | _ => s
        end
      else if Ascii.eqb c "+" then
        String (if encoding_eqb mode encodeQueryComponent then " " else "+"%char)
               (decodeEscapes s1 mode)
      else String c (decodeEscapes s1 mode)
  end.

Definition unescape (s : string) (mode : encoding) : result string :=
  match checkEscapes s mode with
  | Some e => Err e
  | None => Ok (decodeEscapes s mode)
  end.

Definition upperhex (n : N) : ascii :=
  if (n <? 10)%N then ascii_of_N (48 + n) else ascii_of_N (65 + (n - 10)).

Fixpoint escape (s : string) (mode : encoding) : string :=
  match s with
  | EmptyString => EmptyString
  | String c s' =>
      if shouldEscape c mode then
        if Ascii.eqb c " " && encoding_eqb mode encodeQueryComponent
        then String "+" (escape s' mode)
        else String "%" (String (upperhex (N_of_ascii c / 16))
               (String (upperhex (N_of_ascii c mod 16)) (escape s' mode)))
      else String c (escape s' mode)
  end.

Definition validEncoded (s : string) (mode : encoding) : bool :=
  all_bytes (fun c => among "!$&'()*+,;=:@[]%" c || negb (shouldEscape c mode)) s.

Definition stringContainsCTLByte (s : string) : bool :=
  negb (all_bytes (fun c => negb (byte_in 0 31 c || byte_is 127 c)) s).

Fixpoint getSchemeAt (i : Z) (rest rawURL : string)
  : string * string * option error :=
  match rest with
  | EmptyString => (EmptyString, rawURL, None)
  | String c rest' =>
      if isAlpha c then getSchemeAt (i + 1) rest' rawURL
      else if isDigit c || among "+-." c then
        if (i =? 0)%Z then (EmptyString, rawURL, None)
        else getSchemeAt (i + 1) rest' rawURL
      else if Ascii.eqb c ":" then
        if (i =? 0)%Z
        then (EmptyString, EmptyString,
              Some (errorString "missing protocol scheme"))
        else (slice_to rawURL i, slice_from rawURL (i + 1), None)
      else (EmptyString, rawURL, None)
  end.

Definition getScheme (rawURL : string) : string * string * option error :=
  getSchemeAt 0 rawURL rawURL.

Definition validOptionalPort (port : string) : bool :=
  match port with
  | EmptyString => true
  | String c digits => Ascii.eqb c ":" && all_bytes isDigit digits
  end.

Definition validUserinfo (s : string) : bool :=
  all_bytes (fun c => isAlpha c || isDigit c || among "-._:~!$&'()*+,;=%@" c) s.

Definition parseHost (host : string) : result string :=
  if strings.HasPrefix host "[" then
    let i := strings.LastIndex host "]" in
    if (i <? 0)%Z then Err (errorString "missing ']' in host")
    else if negb (validOptionalPort (slice_from host (i + 1)))
    then Err (errorString "invalid port after host")
    else
      let zone := strings.Index (slice_to host i) "%25" in
      if (0 <=? zone)%Z then
        match unescape (slice_to host zone) encodeHost with
        | Err e => Err e
        | Ok host1 =>
            match unescape (slice host zone i) encodeZone with
            | Err e => Err e
            | Ok host2 =>
                match unescape (slice_from host i) encodeHost with
                | Err e => Err e
                | Ok host3 => Ok (host1 ++ host2 ++ host3)
                end
            end
        end
      else unescape host encodeHost
  else
    let i := strings.LastIndex host ":" in
    if negb (i =? -1)%Z && negb (validOptionalPort (slice_from host i))
    then Err (errorString "invalid port after host")
    else unescape host encodeHost.

Definition parseAuthority (authority : string)
  : result (option Userinfo * string) :=
  let i := strings.LastIndex authority "@" in
  match (if (i <? 0)%Z then parseHost authority
         else parseHost (slice_from authority (i + 1))) with
  | Err e => Err e
  | Ok host =>
      if (i <? 0)%Z then Ok (None, host)
      else
        let userinfo := slice_to authority i in
        if negb (validUserinfo userinfo)
        then Err (errorString "net/url: invalid userinfo")
        else if negb (strings.Contains userinfo ":") then
          match unescape userinfo encodeUserPassword with
          | Err e => Err e
          | Ok name =>
              Ok (Some {| username := name; password := EmptyString;
                          passwordSet := false |}, host)
          end
        else
          let '(name, pass, _) := strings.Cut userinfo ":" in
          match unescape name encodeUserPassword with
          | Err e => Err e
          | Ok name' =>
              match unescape pass encodeUserPassword with
              | Err e => Err e
              | Ok pass' =>
                  Ok (Some {| username := name'; password := pass';
                              passwordSet := true |}, host)
              end
          end
  end.

Definition setPath (u : URL) (p : string) : result URL :=
  match unescape p encodePath with
  | Err e => Err e
  | Ok path =>
      if p =? escape path encodePath
      then Ok (setPathFields path EmptyString u)
      else Ok (setPathFields path p u)
  end.

Definition setFragment (u : URL) (f : string) : result URL :=
  match unescape f encodeFragment with
  | Err e => Err e
  | Ok frag =>
      if f =? escape frag encodeFragment
      then Ok (setFragmentFields frag EmptyString u)
      else Ok (setFragmentFields frag f u)
  end.

Definition EscapedPath (u : URL) : string :=
  if nonEmpty (RawPath u) && validEncoded (RawPath u) encodePath
     && match unescape (RawPath u) encodePath with
        | Ok p => p =? Path u
        | Err _ => false
        end
  then RawPath u
  else if Path u =? "*" then "*"
  else escape (Path u) encodePath.

Definition EscapedFragment (u : URL) : string :=
  if nonEmpty (RawFragment u) && validEncoded (RawFragment u) encodeFragment
     && match unescape (RawFragment u) encodeFragment with
        | Ok f => f =? Fragment u
        | Err _ => false
        end
  then RawFragment u
  else escape (Fragment u) encodeFragment.

Section WithTables.
Context `{UnicodeTables}.

Definition parse (rawURL : string) (viaRequest : bool) : result URL :=
  if stringContainsCTLByte rawURL
  then Err (errorString "net/url: invalid control character in URL")
  else if (rawURL =? EmptyString) && viaRequest
  then Err (errorString "empty url")
  else if rawURL =? "*"
  then Ok (setPathFields "*" EmptyString emptyURL)
  else
    match getScheme rawURL with
    | (_, _, Some e) => Err e
    | (scheme, rest, None) =>
        let url := setScheme (strings.ToLower scheme) emptyURL in
        let '(rest, url) :=
          if strings.HasSuffix rest "?"
             && (strings.CountByte rest "?" =? 1)%Z
          then (slice_to rest (len rest - 1), setQuery true EmptyString url)
          else let '(r, q, _) := strings.Cut rest "?" in
               (r, setRawQuery q url) in
        let rootless := negb (strings.HasPrefix rest "/") in
        if rootless && nonEmpty (Scheme url)
        then Ok (setOpaque rest url)
        else if rootless && viaRequest
        then Err (errorString "invalid URI for request")
        else if rootless
                && strings.Contains (fst (fst (strings.Cut rest "/"))) ":"
        then Err (errorString
                    "first path segment in URL cannot contain colon")
        else if (nonEmpty (Scheme url)
                 || (negb viaRequest && negb (strings.HasPrefix rest "///")))
                && strings.HasPrefix rest "//"
        then
          let authority := slice_from rest 2 in
          let i := strings.Index authority "/" in
          let '(authority, rest) :=
            if (0 <=? i)%Z
            then (slice_to authority i, slice_from authority i)
            else (authority, EmptyString) in
          match parseAuthority authority with
          | Err e => Err e
          | Ok (user, host) => setPath (setHost host (setUser user url)) rest
          end
        else if nonEmpty (Scheme url) && strings.HasPrefix rest "/"
        then setPath (setOmitHost true url) rest
        else setPath url rest
    end.

Definition Parse (rawURL : string) : result URL :=
  let '(u, frag, _) := strings.Cut rawURL "#" in
  match parse u false with
  | Err e => Err e
  | Ok url =>
      if frag =? EmptyString then Ok url else setFragment url frag
  end.

End WithTables.

Definition IsAbs (u : URL) : bool := nonEmpty (Scheme u).

Definition Userinfo_String (ui : Userinfo) : string :=
  let s := escape (username ui) encodeUserPassword in
  if passwordSet ui
  then s ++ ":" ++ escape (password ui) encodeUserPassword
  else s.

(** The first byte of [s] is not [c] ([s] is not empty). *)
Definition firstByteIsNot (c : ascii) (s : string) : bool :=
  match s with
  | EmptyString => false
  | String a _ => negb (Ascii.eqb a c)
  end.

(** The method [String] of [URL], the buffer threaded through its
    statements. *)
Definition URL_String (u : URL) : string :=
  let buf := if nonEmpty (Scheme u) then Scheme u ++ ":" else EmptyString in
  let buf :=
    if nonEmpty (Opaque u) then buf ++ Opaque u
    else
      let buf :=
        if nonEmpty (Scheme u) || nonEmpty (Host u) || isSome (User u) then
          if OmitHost u && (Host u =? EmptyString) && negb (isSome (User u))
          then buf
          else
            let buf :=
              if nonEmpty (Host u) || nonEmpty (Path u) || isSome (User u)
              then buf ++ "//" else buf in
            let buf :=
              match User u with
              | Some ui => buf ++ Userinfo_String ui ++ "@"
              | None => buf
              end in
            if nonEmpty (Host u) then buf ++ escape (Host u) encodeHost
            else buf
        else buf in
      let path := EscapedPath u in
      let buf :=
        if firstByteIsNot "/" path && nonEmpty (Host u)
        then buf ++ "/" else buf in
      let buf :=
        if (buf =? EmptyString)
           && strings.Contains (fst (fst (strings.Cut path "/"))) ":"
        then buf ++ "./" else buf in
      buf ++ path in
  let buf :=
    if ForceQuery u || nonEmpty (RawQuery u)
    then buf ++ "?" ++ RawQuery u else buf in
  if nonEmpty (Fragment u) then buf ++ "#" ++ EscapedFragment u else buf.

(** The elements the successive [strings.Cut(remaining, "/")] of
    [resolvePath]'s loop yield. *)
Fixpoint elements (s : string) : list string :=
  match s with
  | EmptyString => [EmptyString]
  | String c s' =>
      if Ascii.eqb c "/" then EmptyString :: elements s'
      else match elements s' with
           | e :: es => String c e :: es
           | [] => [String c EmptyString]
           end
  end.

(** One turn of the loop on the builder [dst] and the flag [first]. *)
Definition resolveStep (st : string * bool) (elem : string) : string * bool :=
  let '(dst, first) := st in
  if elem =? "." then (dst, false)
  else if elem =? ".." then
    let str := slice_from dst 1 in
    let index := strings.LastIndex str "/" in
    if (index =? -1)%Z then ("/", true)
    else ("/" ++ slice_to str index, first)
  else ((if first then dst else dst ++ "/") ++ elem, false).

Definition resolvePath (base ref : string) : string :=
  let full :=
    if ref =? EmptyString then base
    else if firstByteIsNot "/" ref
    then slice_to base (strings.LastIndex base "/" + 1) ++ ref
    else ref in
  if full =? EmptyString then EmptyString
  else
    let elems := elements full in
    let dst := fst (fold_left resolveStep elems ("/", true)) in
    let elem := last elems EmptyString in
    let r := if (elem =? ".") || (elem =? "..") then dst ++ "/" else dst in
    match r with
    | String _ (String c _) => if Ascii.eqb c "/" then slice_from r 1 else r
    | _ => r
    end.

(** [url.setPath(p)] with the error dropped, as [ResolveReference] calls
    it: a failing [setPath] leaves the URL as it was. *)
Definition setPath_ (u : URL) (p : string) : URL :=
  match setPath u p with
  | Ok u' => u'
  | Err _ => u
  end.

Definition ResolveReference (u ref : URL) : URL :=
  let url := ref in
  let url := if Scheme ref =? EmptyString then setScheme (Scheme u) url else url in
  if nonEmpty (Scheme ref) || nonEmpty (Host ref) || isSome (User ref)
  then setPath_ url (resolvePath (EscapedPath ref) EmptyString)
  else if nonEmpty (Opaque ref)
  then setPathFields EmptyString (RawPath url)
         (setHost EmptyString (setUser None url))
  else
    let url :=
      if (Path ref =? EmptyString) && negb (ForceQuery ref)
         && (RawQuery ref =? EmptyString)
      then
        let url := setRawQuery (RawQuery u) url in
        if Fragment ref =? EmptyString
        then setFragmentFields (Fragment u) (RawFragment u) url
        else url
      else url in
    if (Path ref =? EmptyString) && nonEmpty (Opaque u)
    then setPathFields EmptyString (RawPath url)
           (setHost EmptyString (setUser None (setOpaque (Opaque u) url)))
    else
      let url := setUser (User u) (setHost (Host u) url) in
      setPath_ url (resolvePath (EscapedPath u) (EscapedPath ref)).

End url.

(** ** Package [html] (the program's [htmlstd]) *)
Module html.

(** The replacer of [EscapeString]: the five special bytes and their
    entities. *)
Definition escapeByte (c : ascii) : string :=
  if Ascii.eqb c "&" then "&amp;"
  else if Ascii.eqb c "'" then "&#39;"
  else if Ascii.eqb c "<" then "&lt;"
  else if Ascii.eqb c ">" then "&gt;"
  else if Ascii.eqb c "034" then "&#34;"
  else String c EmptyString.

Fixpoint EscapeString (s : string) : string :=
  match s with
  | EmptyString => EmptyString
  | String c s' => escapeByte c ++ EscapeString s'
  end.

End html.

(** ** Package [golang.org/x/net/html] (the program's [xhtml])

    A parsed document is a tree of nodes.  The program reads [Type], [Data],
    [Attr] and the children of a node, in sibling order. *)
Module xhtml.

Inductive NodeType : Type :=
| ErrorNode
| TextNode
| DocumentNode
| ElementNode
| CommentNode
| DoctypeNode
| RawNode.

Definition NodeType_eqb (a b : NodeType) : bool :=
  match a, b with
  | ErrorNode, ErrorNode | TextNode, TextNode | DocumentNode, DocumentNode
  | ElementNode, ElementNode | CommentNode, CommentNode
  | DoctypeNode, DoctypeNode | RawNode, RawNode => true
  | _, _ => false
  end.

Record Attribute : Type := {
  Namespace : string;
  Key : string;
  Val : string
}.

(** [Children] is the list [FirstChild], [FirstChild.NextSibling], ... *)
#[warning="-register-all"]
Inductive Node : Type := mkNode {
  Type_ : NodeType;
  Data : string;
  Attr : list Attribute;
  Children : list Node
}.

End xhtml.

(** ** The outside world

    The parser of [x/net/html] and the network are not part of the
    program.  [htmlParse body] is what [xhtml.Parse] returns on the bytes
    [body]; [httpGet target] is the response body the single GET request to
    [target] delivers, or the error of [http.NewRequest], [client.Do] or
    [io.ReadAll]. *)
Class Environment : Type := {
  htmlParse : string -> result xhtml.Node;
  httpGet : string -> result string
}.

(** ** Package [path/filepath]

    Paths are kept as the program builds them: [Join] is not evaluated. *)
Module filepath.

Inductive path : Type :=
| Dir (name : string)
| Join (dir : path) (elem : string).

End filepath.

(** ** Package [fmt]

    [Sprintf] on string operands.  The directives of the program's template
    are interpreted: [%s] (and [%v], the same for a string) and [%%].  The
    notices of the library for a missing operand, a missing verb and unused
    operands are written out; flags, widths, precisions and the remaining
    verbs are outside the model and are rendered as a bad verb. *)
Module fmt.

Fixpoint extraOperands (a : list string) : string :=
  match a with
  | [] => EmptyString
  | x :: a' =>
      "string=" ++ x
      ++ match a' with [] => EmptyString | _ => ", " ++ extraOperands a' end
  end.

Definition extra (a : list string) : string :=
  match a with
  | [] => EmptyString
  | _ => "%!(EXTRA " ++ extraOperands a ++ ")"
  end.

Fixpoint Sprintf (format : string) (a : list string) : string :=
  match format with
  | EmptyString => extra a
  | String c rest =>
      if Ascii.eqb c "%" then
        match rest with
        | EmptyString => "%!(NOVERB)" ++ extra a
        | String verb rest' =>
            if Ascii.eqb verb "%" then String "%" (Sprintf rest' a)
            else
              match a with
              | [] => "%!" ++ String verb "(MISSING)" ++ Sprintf rest' []
              | x :: a' =>
                  (if Ascii.eqb verb "s" || Ascii.eqb verb "v" then x
                   else "%!" ++ String verb ("(string=" ++ x ++ ")"))
                  ++ Sprintf rest' a'
              end
        end
      else String c (Sprintf rest a)
  end.

(** The number of operands a format consumes, when every directive of it
    is [%s], [%v] or [%%]. *)
Fixpoint operands (format : string) : option nat :=
  match format with
  | EmptyString => Some 0
  | String c rest =>
      if Ascii.eqb c "%" then
        match rest with
        | EmptyString => None
        | String verb rest' =>
            if Ascii.eqb verb "%" then operands rest'
            else if Ascii.eqb verb "s" || Ascii.eqb verb "v"
                 then option_map S (operands rest')
                 else None
        end
      else operands rest
  end.

End fmt.

(** ** The program: data *)

Record Config : Type := {
  CNAME : string;
  GlobalOG : string;
  DefaultRedirect : string;
  (** The [map[string]string] of routes, as the key/value pairs the
      [range] loop of [main] visits. *)
  Routes : list (string * string)
}.

Record OG : Type := mkOG {
  Title : string;
  Description : string;
  Image : string
}.

(** ** The renderer *)

(** The raw string literal [tpl] of [buildHTML]. *)
Definition tpl : string :=
    "<!doctype html>" ++ nl ++
    "<html lang=" ++ dq ++ "ko" ++ dq ++ ">" ++ nl ++
    "<head>" ++ nl ++
    "<meta charset=" ++ dq ++ "utf-8" ++ dq ++ ">" ++ nl ++
    "<title>%s</title>" ++ nl ++
    "<meta name=" ++ dq ++ "viewport" ++ dq ++ " content=" ++ dq ++ "width=device-width, initial-scale=1" ++ dq ++ ">" ++ nl ++
    "<meta name=" ++ dq ++ "description" ++ dq ++ " content=" ++ dq ++ "%s" ++ dq ++ ">" ++ nl ++
    "<meta name=" ++ dq ++ "robots" ++ dq ++ " content=" ++ dq ++ "noindex" ++ dq ++ ">" ++ nl ++
    "<meta property=" ++ dq ++ "og:type" ++ dq ++ " content=" ++ dq ++ "website" ++ dq ++ ">" ++ nl ++
    "<meta property=" ++ dq ++ "og:title" ++ dq ++ " content=" ++ dq ++ "%s" ++ dq ++ ">" ++ nl ++
    "<meta property=" ++ dq ++ "og:description" ++ dq ++ " content=" ++ dq ++ "%s" ++ dq ++ ">" ++ nl ++
    "<meta property=" ++ dq ++ "og:image" ++ dq ++ " content=" ++ dq ++ "%s" ++ dq ++ ">" ++ nl ++
    "<meta property=" ++ dq ++ "og:url" ++ dq ++ " content=" ++ dq ++ "%s" ++ dq ++ ">" ++ nl ++
    "<meta name=" ++ dq ++ "twitter:card" ++ dq ++ " content=" ++ dq ++ "summary_large_image" ++ dq ++ ">" ++ nl ++
    "<link rel=" ++ dq ++ "canonical" ++ dq ++ " href=" ++ dq ++ "%s" ++ dq ++ ">" ++ nl ++
    "<script>(function(){ window.location.replace(" ++ dq ++ "%s" ++ dq ++ "); })();</script>" ++ nl ++
    "<style>html,body{background:#fff;margin:0;height:100%%;display:flex;align-items:center;justify-content:center;font:16px/1.4 -apple-system,BlinkMacSystemFont,Segoe UI,Roboto,Helvetica,Arial,Apple SD Gothic Neo,Noto Sans KR,sans-serif;color:#111}</style>" ++ nl ++
    "</head>" ++ nl ++
    "<body>" ++ nl ++
    "<noscript>자바스크립트가 꺼져 있어요. <a href=" ++ dq ++ "%s" ++ dq ++ ">여기를 눌러 이동</a>하세요.</noscript>" ++ nl ++
    "</body>" ++ nl ++
    "</html>".

(** The site origin the canonical page URL is built on. *)
Definition origin : string := "https://shop.unigoods.im".

Definition buildHTML (path to : string) (og : OG) : string :=
  let title := html.EscapeString (Title og) in
  let desc := html.EscapeString (Description og) in
  let img := html.EscapeString (Image og) in
  let shopURL := origin ++ path in
  let shopURL := html.EscapeString shopURL in
  let toEsc := html.EscapeString to in
  fmt.Sprintf tpl [title; desc; title; desc; img; shopURL; toEsc; toEsc; toEsc].

(** ** The program: functions *)

Definition cleanRoutePath (p : string) : string :=
  if p =? EmptyString then "/"
  else
    let p := if negb (strings.HasPrefix p "/") then "/" ++ p else p in
    strings.TrimSuffix p "/".

Definition setTitle (og : OG) (v : string) : OG :=
  mkOG v (Description og) (Image og).
Definition setDescription (og : OG) (v : string) : OG :=
  mkOG (Title og) v (Image og).
Definition setImage (og : OG) (v : string) : OG :=
  mkOG (Title og) (Description og) v.

(** [OG{}] *)
Definition emptyOG : OG := mkOG EmptyString EmptyString EmptyString.

(** The first [n] bytes of [s]: what [io.LimitReader] lets through. *)
Fixpoint limit (n : N) (s : string) : string :=
  match s with
  | EmptyString => EmptyString
  | String c s' =>
      if (n =? 0)%N then EmptyString else String c (limit (N.pred n) s')
  end.

Section Program.
Context `{UnicodeTables}.

(** The loop over [n.Attr] of the closure [f]: the variables [prop],
    [name] and [cont] after one attribute. *)
Definition readAttr (vars : string * string * string) (a : xhtml.Attribute)
  : string * string * string :=
  let '(prop, name, cont) := vars in
  let k := strings.ToLower (xhtml.Key a) in
  if k =? "property"
  then (strings.ToLower (strings.TrimSpace (xhtml.Val a)), name, cont)
  else if k =? "name"
  then (prop, strings.ToLower (strings.TrimSpace (xhtml.Val a)), cont)
  else if k =? "content"
  then (prop, name, strings.TrimSpace (xhtml.Val a))
  else vars.

Definition readAttrs (attrs : list xhtml.Attribute) : string * string * string :=
  fold_left readAttr attrs (EmptyString, EmptyString, EmptyString).

(** The test that guards the body of [f] for a [meta] element. *)
Definition isMeta (n : xhtml.Node) : bool :=
  xhtml.NodeType_eqb (xhtml.Type_ n) xhtml.ElementNode
  && strings.EqualFold (xhtml.Data n) "meta".

(** The body of [f] for a [meta] element, on the captured variable [og]. *)
Definition visitMeta (n : xhtml.Node) (og : OG) : OG :=
  let '(prop, name, cont) := readAttrs (xhtml.Attr n) in
  let key := if prop =? EmptyString then name else prop in
  if key =? "og:title" then setTitle og cont
  else if key =? "og:description" then setDescription og cont
  else if key =? "og:image" then setImage og cont
  else og.

(** The closure [f] of [parseOGHTML]: the captured [og] is threaded
    through the node and then through its children, first to last. *)
Fixpoint f (n : xhtml.Node) (og : OG) : OG :=
  let og := if isMeta n then visitMeta n og else og in
  fold_left (fun og c => f c og) (xhtml.Children n) og.

Definition absolutize (raw baseStr : string) : string * option error :=
  if raw =? EmptyString then (raw, None)
  else
    match url.Parse raw with
    | Err err => (raw, Some err)
    | Ok u =>
        if url.IsAbs u then (url.URL_String u, None)
        else
          match url.Parse baseStr with
          | Err err => (raw, Some err)
          | Ok base =>
              if url.nonEmpty (url.Host u) && (url.Scheme u =? EmptyString)
              then (url.URL_String (url.setScheme (url.Scheme base) u), None)
              else (url.URL_String (url.ResolveReference base u), None)
          end
    end.

(** Lines 54 to 67 of [main]: the fallbacks and the resolution of the
    image, on the [og] of one route whose target is [to]. *)
Definition applyFallbacks (cfg : Config) (to : string) (og : OG) : OG :=
  let og :=
    if (Image og =? EmptyString) && negb (GlobalOG cfg =? EmptyString)
    then setImage og (GlobalOG cfg) else og in
  let og := if Title og =? EmptyString then setTitle og "UniGoods" else og in
  let og :=
    if Description og =? EmptyString
    then setDescription og "UniGoods link" else og in
  if negb (Image og =? EmptyString) then
    match absolutize (Image og) to with
    | (abs, None) => setImage og abs
    | (_, Some _) => og
    end
  else og.

Context `{Environment}.

Definition parseOGHTML (body base : string) : OG :=
  match htmlParse body with
  | Err _ => emptyOG
  | Ok doc => f doc emptyOG
  end.

Definition fetchOG (target : string) : OG * option error :=
  match httpGet target with
  | Err err => (emptyOG, Some err)
  | Ok body => (parseOGHTML (limit 2097152 body) target, None)
  end.

(** The arguments of the call of [buildHTML] for the route [p -> to]. *)
Definition routePage (cfg : Config) (p to : string) : string * string * OG :=
  let routePath := cleanRoutePath p in
  let '(og, _) := fetchOG to in
  (routePath, to, applyFallbacks cfg to og).

(** What the program writes, in order, in a run whose file-system calls
    all succeed ([must] ends the run at the first that fails).  The log
    is not modelled, nor are the flags and the loading of the
    configuration: [cfg] and [outDir] are given. *)
Inductive effect : Type :=
| MkdirAll (dir : filepath.path)
| WriteFile (name : filepath.path) (data : string).

Definition routeEffects (cfg : Config) (outDir : string)
           (route : string * string) : list effect :=
  let '(p, to) := route in
  let '(routePath, to, og) := routePage cfg p to in
  let destDir :=
    filepath.Join (filepath.Dir outDir) (strings.TrimPrefix routePath "/") in
  [MkdirAll destDir;
   WriteFile (filepath.Join destDir "index.html") (buildHTML routePath to og)].

(** The [og] of the 404 page. *)
Definition notFoundOG (cfg : Config) : OG :=
  mkOG "UniGoods" "유니굿즈 숍으로 이동합니다." (GlobalOG cfg).

Definition main (cfg : Config) (outDir : string) : list effect :=
  ((if negb (strings.TrimSpace (CNAME cfg) =? EmptyString)
    then [WriteFile (filepath.Join (filepath.Dir outDir) "CNAME")
                    (CNAME cfg ++ nl)]
    else [])
   ++ flat_map (routeEffects cfg outDir) (Routes cfg)
   ++ (if negb (strings.TrimSpace (DefaultRedirect cfg) =? EmptyString)
       then [WriteFile (filepath.Join (filepath.Dir outDir) "404.html")
                       (buildHTML "/404" (DefaultRedirect cfg) (notFoundOG cfg))]
       else []))%list.

End Program.

(** ** The run, with its failures

    [main] above lists what a run writes when nothing fails.  Here the
    program is followed call by call: [loadConfig] reads and decodes the
    configuration, and every call of the file system goes through [must],
    which ends the run with [log.Fatal] at the first error.

    The file system and the JSON decoder are not part of the program.  A
    state of the world is a [World]; [os.ReadFile] reads it, [os.MkdirAll]
    and [os.WriteFile] change it and may fail; [json.Unmarshal] decodes
    the bytes of the configuration into a [Config], whose routes stand in
    the order in which the [range] loop of the run visits them.  The flags
    are given: [cfgPath] and [outDir] are the values of [-config] and
    [-out].  The log is not modelled. *)
Module os.

Class FileSystem (World : Type) : Type := {
  ReadFile : string -> World -> result string;
  MkdirAll : filepath.path -> World -> World * option error;
  WriteFile : filepath.path -> string -> World -> World * option error
}.

End os.

Module json.

Class Decoder : Type := {
  Unmarshal : string -> result Config
}.

End json.

Module Run.

(** A piece of the run from a state of the world: the state it leaves,
    and its value, or the error [log.Fatal] ended the run with. *)
Definition M (World A : Type) : Type := World -> World * result A.

Definition ret {World A : Type} (a : A) : M World A := fun w => (w, Ok a).

Definition bind {World A B : Type} (m : M World A) (k : A -> M World B)
  : M World B :=
  fun w =>
    match m w with
    | (w', Ok a) => k a w'
    | (w', Err e) => (w', Err e)
    end.

Notation "x <- m ;; k" := (bind m (fun x => k))
  (at level 61, m at next level, right associativity).
Notation "m ;; k" := (bind m (fun _ => k))
  (at level 61, right associativity).

(** Reading the world. *)
Definition read {World A : Type} (get : World -> A) : M World A :=
  fun w => (w, Ok (get w)).

(** A call that changes the world and returns an [error]. *)
Definition call {World : Type} (c : World -> World * option error)
  : M World (option error) :=
  fun w => let '(w', err) := c w in (w', Ok err).

(** The [error] of a pair of a value and an [error]. *)
Definition errOf {A : Type} (r : result A) : option error :=
  match r with
  | Ok _ => None
  | Err err => Some err
  end.

(** The body of a [for ... range] loop, on the elements in turn. *)
Fixpoint forEach {World A : Type} (l : list A) (body : A -> M World unit)
  : M World unit :=
  match l with
  | [] => ret tt
  | x :: l' => body x ;; forEach l' body
  end.

Section Main.
Context {World : Type} `{os.FileSystem World} `{json.Decoder}.
Context `{UnicodeTables} `{Environment}.

Definition must (err : option error) : M World unit :=
  fun w =>
    match err with
    | Some e => (w, Err e)
    | None => (w, Ok tt)
    end.

Definition loadConfig (path : string) (w : World) : result Config :=
  match os.ReadFile path w with
  | Err err => Err err
  | Ok b =>
      match json.Unmarshal b with
      | Err err => Err err
      | Ok c => Ok c
      end
  end.

(** [main], the flags [-config] and [-out] given. *)
Definition main (cfgPath outDir : string) : M World unit :=
  r <- read (loadConfig cfgPath) ;;
  must (errOf r) ;;
  match r with
  | Err _ => ret tt
  | Ok cfg =>
      (if negb (strings.TrimSpace (CNAME cfg) =? EmptyString)
       then
         err <- call (os.WriteFile (filepath.Join (filepath.Dir outDir) "CNAME")
                                   (CNAME cfg ++ nl)) ;;
         must err
       else ret tt) ;;
      forEach (Routes cfg)
        (fun route =>
           let '(p, to) := route in
           let routePath := cleanRoutePath p in
           let '(og, _) := fetchOG to in
           let og := applyFallbacks cfg to og in
           let destDir :=
             filepath.Join (filepath.Dir outDir)
                           (strings.TrimPrefix routePath "/") in
           err <- call (os.MkdirAll destDir) ;;
           must err ;;
           let htmlPage := buildHTML routePath to og in
           err <- call (os.WriteFile (filepath.Join destDir "index.html")
                                     htmlPage) ;;
           must err) ;;
      (if negb (strings.TrimSpace (DefaultRedirect cfg) =? EmptyString)
       then
         let og := mkOG "UniGoods" "유니굿즈 숍으로 이동합니다." (GlobalOG cfg) in
         let page := buildHTML "/404" (DefaultRedirect cfg) og in
         err <- call (os.WriteFile (filepath.Join (filepath.Dir outDir) "404.html")
                                   page) ;;
         must err
       else ret tt)
  end.

End Main.

End Run.

(** * Vocabulary of the statements *)

(** The five bytes [html.EscapeString] replaces. *)
Definition special (c : ascii) : bool := among "&<>'" c || Ascii.eqb c "034".

(** [s] continues an ampersand into one of the five entities. *)
Definition startsEntity (s : string) : bool :=
  prefix "amp;" s || prefix "#39;" s || prefix "lt;" s || prefix "gt;" s
  || prefix "#34;" s.

(** No special byte stands in [s] but an ampersand that opens an entity. *)
Fixpoint escaped (s : string) : bool :=
  match s with
  | EmptyString => true
  | String c s' =>
      (if Ascii.eqb c "&" then startsEntity s' else negb (special c))
      && escaped s'
  end.

(** Reading the five entities back; [k] bytes of an entity just read are
    still to be skipped. *)
Fixpoint decodeSkip (k : nat) (s : string) : string :=
  match s with
  | EmptyString => EmptyString
  | String c s' =>
      match k with
      | S k' => decodeSkip k' s'
      | O =>
          if Ascii.eqb c "&" then
            if prefix "amp;" s' then String "&" (decodeSkip 4 s')
            else if prefix "#39;" s' then String "'" (decodeSkip 4 s')
            else if prefix "lt;" s' then String "<" (decodeSkip 3 s')
            else if prefix "gt;" s' then String ">" (decodeSkip 3 s')
            else if prefix "#34;" s' then String "034" (decodeSkip 4 s')
            else String c (decodeSkip 0 s')
          else String c (decodeSkip 0 s')
      end
  end.

Definition decodeEntities (s : string) : string := decodeSkip 0 s.

(** The number of positions of [s] at which [p] occurs. *)
Fixpoint occurrences (p s : string) : nat :=
  (if prefix p s then 1 else 0)
  + match s with
    | EmptyString => 0
    | String _ s' => occurrences p s'
    end.

(** The fixed-shape document of the renderer, with its nine interpolation
    sites. *)
Definition pageShape (title description og_title og_description og_image
                      og_url canonical script_target noscript_href : string)
  : string :=
    "<!doctype html>" ++ nl ++
    "<html lang=" ++ dq ++ "ko" ++ dq ++ ">" ++ nl ++
    "<head>" ++ nl ++
    "<meta charset=" ++ dq ++ "utf-8" ++ dq ++ ">" ++ nl ++
    "<title>" ++ title ++ "</title>" ++ nl ++
    "<meta name=" ++ dq ++ "viewport" ++ dq ++ " content=" ++ dq ++ "width=device-width, initial-scale=1" ++ dq ++ ">" ++ nl ++
    "<meta name=" ++ dq ++ "description" ++ dq ++ " content=" ++ dq ++ description ++ dq ++ ">" ++ nl ++
    "<meta name=" ++ dq ++ "robots" ++ dq ++ " content=" ++ dq ++ "noindex" ++ dq ++ ">" ++ nl ++
    "<meta property=" ++ dq ++ "og:type" ++ dq ++ " content=" ++ dq ++ "website" ++ dq ++ ">" ++ nl ++
    "<meta property=" ++ dq ++ "og:title" ++ dq ++ " content=" ++ dq ++ og_title ++ dq ++ ">" ++ nl ++
    "<meta property=" ++ dq ++ "og:description" ++ dq ++ " content=" ++ dq ++ og_description ++ dq ++ ">" ++ nl ++
    "<meta property=" ++ dq ++ "og:image" ++ dq ++ " content=" ++ dq ++ og_image ++ dq ++ ">" ++ nl ++
    "<meta property=" ++ dq ++ "og:url" ++ dq ++ " content=" ++ dq ++ og_url ++ dq ++ ">" ++ nl ++
    "<meta name=" ++ dq ++ "twitter:card" ++ dq ++ " content=" ++ dq ++ "summary_large_image" ++ dq ++ ">" ++ nl ++
    "<link rel=" ++ dq ++ "canonical" ++ dq ++ " href=" ++ dq ++ canonical ++ dq ++ ">" ++ nl ++
    "<script>(function(){ window.location.replace(" ++ dq ++ script_target ++ dq ++ "); })();</script>" ++ nl ++
    "<style>html,body{background:#fff;margin:0;height:100%;display:flex;align-items:center;justify-content:center;font:16px/1.4 -apple-system,BlinkMacSystemFont,Segoe UI,Roboto,Helvetica,Arial,Apple SD Gothic Neo,Noto Sans KR,sans-serif;color:#111}</style>" ++ nl ++
    "</head>" ++ nl ++
    "<body>" ++ nl ++
    "<noscript>자바스크립트가 꺼져 있어요. <a href=" ++ dq ++ noscript_href ++ dq ++ ">여기를 눌러 이동</a>하세요.</noscript>" ++ nl ++
    "</body>" ++ nl ++
    "</html>".

(** A document cut into its fixed text and its interpolated values. *)
Inductive piece : Type :=
| Lit (text : string)
| Hole (value : string).

Fixpoint render (ps : list piece) : string :=
  match ps with
  | [] => EmptyString
  | Lit t :: ps' => t ++ render ps'
  | Hole v :: ps' => v ++ render ps'
  end.

(** No occurrence of [p] that starts in [t] can run past the end of [t]. *)
Fixpoint settled (p t : string) : bool :=
  match t with
  | EmptyString => true
  | String _ t' => (prefix p t || negb (prefix t p)) && settled p t'
  end.

Fixpoint litsSettled (p : string) (ps : list piece) : bool :=
  match ps with
  | [] => true
  | Lit t :: ps' => settled p t && litsSettled p ps'
  | Hole _ :: ps' => litsSettled p ps'
  end.

Fixpoint litOccurrences (p : string) (ps : list piece) : nat :=
  match ps with
  | [] => 0
  | Lit t :: ps' => occurrences p t + litOccurrences p ps'
  | Hole _ :: ps' => litOccurrences p ps'
  end.

(** The byte [c] does not occur in [s]. *)
Definition avoids (c : ascii) (s : string) : bool :=
  all_bytes (fun a => negb (Ascii.eqb a c)) s.

Fixpoint holesAvoid (c : ascii) (ps : list piece) : Prop :=
  match ps with
  | [] => True
  | Lit _ :: ps' => holesAvoid c ps'
  | Hole v :: ps' =>
      avoids c v = true /\ holesAvoid c ps'
  end.

(** Prepending one byte of fixed text. *)
Definition lit (c : ascii) (ps : list piece) : list piece :=
  match ps with
  | Lit t :: ps' => Lit (String c t) :: ps'
  | _ => Lit (String c EmptyString) :: ps
  end.

(** The pieces [fmt.Sprintf] puts together for a format whose directives
    are [%s], [%v] and [%%] and that has as many of them as operands. *)
Fixpoint formatPieces (format : string) (a : list string)
  : option (list piece) :=
  match format with
  | EmptyString => match a with [] => Some [] | _ :: _ => None end
  | String c rest =>
      if Ascii.eqb c "%" then
        match rest with
        | EmptyString => None
        | String verb rest' =>
            if Ascii.eqb verb "%"
            then option_map (lit "%") (formatPieces rest' a)
            else if Ascii.eqb verb "s" || Ascii.eqb verb "v" then
              match a with
              | x :: a' => option_map (cons (Hole x)) (formatPieces rest' a')
              | [] => None
              end
            else None
        end
      else option_map (lit c) (formatPieces rest a)
  end.

(** The five entities. *)
Definition entities : list string :=
  ["&amp;"; "&#39;"; "&lt;"; "&gt;"; "&#34;"].

(** [w] is the UTF-8 encoding of one white-space character. *)
Definition isSpaceEncoding (w : string) : bool :=
  match w with
  | String a EmptyString => strings.asciiSpace a
  | String a (String b EmptyString) => strings.space2 a b
  | String a (String b (String c EmptyString)) => strings.space3 a b c
  | _ => false
  end.

(** [s] neither begins nor ends with a white-space character. *)
Definition trimmed (s : string) : Prop :=
  forall w r, isSpaceEncoding w = true -> s <> w ++ r /\ s <> r ++ w.

(** [s] consists of white space only. *)
Inductive blank : string -> Prop :=
| blank_nil : blank EmptyString
| blank_cons (w s : string) :
    isSpaceEncoding w = true -> blank s -> blank (w ++ s).

Definition noLeadingSpace (t : list ascii) : bool :=
  match t with
  | [] => true
  | a :: t1 =>
      negb (strings.asciiSpace a)
      && match t1 with
         | [] => true
         | b :: t2 =>
             negb (strings.space2 a b)
             && match t2 with
                | [] => true
                | c :: _ => negb (strings.space3 a b c)
                end
         end
  end.

Definition noTrailingSpaceRev (t : list ascii) : bool :=
  match t with
  | [] => true
  | a :: t1 =>
      negb (strings.asciiSpace a)
      && match t1 with
         | [] => true
         | b :: t2 =>
             negb (strings.space2 b a)
             && match t2 with
                | [] => true
                | c :: _ => negb (strings.space3 c b a)
                end
         end
  end.

(** Induction on a document: a property of the children gives it for the
    node. *)
Definition Node_forall_ind (P : xhtml.Node -> Prop)
  (step : forall n, Forall P (xhtml.Children n) -> P n) : forall n, P n :=
  fix IH (n : xhtml.Node) : P n :=
    match n with
    | xhtml.mkNode ty data attrs cs =>
        step (xhtml.mkNode ty data attrs cs)
             ((fix all (cs : list xhtml.Node) : Forall P cs :=
                 match cs with
                 | [] => Forall_nil P
                 | c :: cs' => Forall_cons c (IH c) (all cs')
                 end) cs)
    end.

(** The nodes of a document in document order (depth first). *)
Fixpoint preorder (n : xhtml.Node) : list xhtml.Node :=
  n :: flat_map preorder (xhtml.Children n).

(** A [meta] element for the examples. *)
Definition metaTag (attrs : list (string * string)) : xhtml.Node :=
  xhtml.mkNode xhtml.ElementNode "meta"
    (map (fun kv => {| xhtml.Namespace := EmptyString;
                       xhtml.Key := fst kv; xhtml.Val := snd kv |}) attrs)
    [].

(** A document whose head holds the given elements. *)
Definition documentWith (head : list xhtml.Node) : xhtml.Node :=
  xhtml.mkNode xhtml.DocumentNode EmptyString []
    [xhtml.mkNode xhtml.ElementNode "html" []
       [xhtml.mkNode xhtml.ElementNode "head" [] head;
        xhtml.mkNode xhtml.ElementNode "body" [] []]].

(** ** Extraction and fallbacks *)

Section Vocabulary.
Context `{UnicodeTables}.

(** The value of the last attribute of [attrs] whose lower-cased key is
    [k]. *)
Fixpoint lastAttr (k : string) (attrs : list xhtml.Attribute)
  : option string :=
  match attrs with
  | [] => None
  | a :: rest =>
      match lastAttr k rest with
      | Some v => Some v
      | None =>
          if strings.ToLower (xhtml.Key a) =? k then Some (xhtml.Val a)
          else None
      end
  end.

Definition metaProperty (n : xhtml.Node) : string :=
  match lastAttr "property" (xhtml.Attr n) with
  | Some v => strings.ToLower (strings.TrimSpace v)
  | None => EmptyString
  end.

Definition metaName (n : xhtml.Node) : string :=
  match lastAttr "name" (xhtml.Attr n) with
  | Some v => strings.ToLower (strings.TrimSpace v)
  | None => EmptyString
  end.

Definition metaContent (n : xhtml.Node) : string :=
  match lastAttr "content" (xhtml.Attr n) with
  | Some v => strings.TrimSpace v
  | None => EmptyString
  end.

(** The lookup key of a [meta] element: its property, and its name when
    the property is empty. *)
Definition metaKey (n : xhtml.Node) : string :=
  if metaProperty n =? EmptyString then metaName n else metaProperty n.

(** What the walk does at one node. *)
Definition visit (og : OG) (n : xhtml.Node) : OG :=
  if isMeta n then visitMeta n og else og.

(** The [meta] elements of [doc] whose lookup key is [key], in document
    order. *)
Definition tagged (key : string) (doc : xhtml.Node) : list xhtml.Node :=
  filter (fun n => isMeta n && (metaKey n =? key)) (preorder doc).

(** The field a recognised key stands for. *)
Definition fieldOf (key : string) (og : OG) : string :=
  if key =? "og:title" then Title og
  else if key =? "og:description" then Description og
  else Image og.

(** The keys the walk recognises. *)
Definition recognised : list string :=
  ["og:title"; "og:description"; "og:image"].

(** The resolver as the pipeline uses it: the absolute URL that
    [absolutize] returns, and the reference itself when it returns an
    error. *)
Definition resolve (reference base : string) : string :=
  match absolutize reference base with
  | (abs, None) => abs
  | (_, Some _) => reference
  end.

(** The image before resolution: the extracted one, or the global
    fallback when the extracted one is empty and a fallback is set. *)
Definition fallbackImage (cfg : Config) (og : OG) : string :=
  if (Image og =? EmptyString) && negb (GlobalOG cfg =? EmptyString)
  then GlobalOG cfg else Image og.

End Vocabulary.

(** ** The renderer, the walk and the resolver: further vocabulary *)

(** No byte of [s] is one of the five that [html.EscapeString] replaces. *)
Definition noSpecial (s : string) : bool :=
  all_bytes (fun c => negb (special c)) s.

(** The value holds neither a [<] nor a double quote. *)
Definition markupFree (v : string) : Prop :=
  avoids "<" v = true /\ avoids "034" v = true.

(** The test of one turn of the loop of [strings.EqualFold] on two ASCII
    bytes: the bytes are the same, or the lower one is an upper-case
    letter and the other one is its lower-case form. *)
Definition sameFold (sr tr : ascii) : bool :=
  Ascii.eqb tr sr
  || (let lo := if (N_of_ascii tr <? N_of_ascii sr)%N then tr else sr in
      let hi := if (N_of_ascii tr <? N_of_ascii sr)%N then sr else tr in
      strings.isUpper lo && (N_of_ascii hi =? N_of_ascii lo + 32)%N).

(** The 256 bytes. *)
Definition all_ascii : list ascii := map ascii_of_nat (seq 0 256).

(** The value of a field for the renderer: the extracted one, or the
    default when nothing was extracted. *)
Definition orDefault (v default : string) : string :=
  if v =? EmptyString then default else v.

(** The scheme, the user information and the host of a URL, as [String]
    writes them in front of the path. *)
Definition siteOf (u : url.URL) : string :=
  (url.Scheme u ++ ":") ++ "//"
  ++ match url.User u with
     | Some ui => url.Userinfo_String ui ++ "@"
     | None => EmptyString
     end
  ++ url.escape (url.Host u) url.encodeHost.

(** ** The calls of a run *)

Section Calls.
Context {World : Type} `{os.FileSystem World}.

(** One call of the file system. *)
Definition perform (e : effect) (w : World) : World * option error :=
  match e with
  | MkdirAll dir => os.MkdirAll dir w
  | WriteFile name data => os.WriteFile name data w
  end.

(** The world after the calls [es], made one after the other. *)
Definition after (es : list effect) (w : World) : World :=
  fold_left (fun w e => fst (perform e w)) es w.

(** Each of the calls [es], made one after the other, succeeds. *)
Fixpoint allSucceed (es : list effect) (w : World) : Prop :=
  match es with
  | [] => True
  | e :: es' => snd (perform e w) = None /\ allSucceed es' (fst (perform e w))
  end.

(** The calls [es] under [must]. *)
Definition performAll (es : list effect) : Run.M World unit :=
  Run.forEach es (fun e => Run.bind (Run.call (perform e)) Run.must).

End Calls.

(** ** Worlds for the closed examples *)

(** Tables that are never consulted on ASCII input. *)
Definition asciiTables : UnicodeTables :=
  {| mapToLower := fun s => s; foldTails := fun _ _ => false |}.

(** A world in which every request fails. *)
Definition offline : Environment :=
  {| htmlParse := fun _ => Err (errorString "no document");
     httpGet := fun _ => Err (errorString "no network") |}.

(** A world in which every target serves a page that parses to [doc]. *)
Definition serving (doc : xhtml.Node) : Environment :=
  {| htmlParse := fun _ => Ok doc; httpGet := fun _ => Ok EmptyString |}.

(** The text of a parsed URL (and [!] when it does not parse), and the
    text of a reference resolved against a base. *)
Definition reparse (raw : string) : string :=
  match @url.Parse asciiTables raw with
  | Ok u => url.URL_String u
  | Err _ => "!"
  end.

Definition resolved (base ref : string) : string :=
  match @url.Parse asciiTables base, @url.Parse asciiTables ref with
  | Ok b, Ok r => url.URL_String (url.ResolveReference b r)
  | _, _ => "!"
  end.

(** A file system that keeps the calls made to it and never fails, with
    a configuration file that decodes to [cfg]. *)
Definition recording : os.FileSystem (list effect) :=
  {| os.ReadFile := fun _ _ => Ok "{}";
     os.MkdirAll := fun dir w => ((w ++ [MkdirAll dir])%list, None);
     os.WriteFile := fun name data w => ((w ++ [WriteFile name data])%list, None) |}.

Definition decodingTo (cfg : Config) : json.Decoder :=
  {| json.Unmarshal := fun _ => Ok cfg |}.

(** ** Tactics *)

Ltac pick_case :=
  repeat first [left; split; reflexivity | right]; try (split; reflexivity).

Ltac fallback_cases :=
  repeat (match goal with
          | |- context [?x =? EmptyString] =>
              destruct (String.eqb_spec x EmptyString)
          | |- context [absolutize ?a ?b] =>
              destruct (absolutize a b) as [? [?|]]
          end;
          cbn [Title Description Image setImage setTitle setDescription
               negb andb] in *);
  try reflexivity; try congruence.

Ltac url_atoms u :=
  destruct (String.eqb_spec (url.Scheme u) EmptyString),
    (String.eqb_spec (url.Host u) EmptyString),
    (String.eqb_spec (url.Opaque u) EmptyString),
    (String.eqb_spec (url.Path u) EmptyString),
    (String.eqb_spec (url.RawQuery u) EmptyString),
    (String.eqb_spec (url.Fragment u) EmptyString),
    (url.User u), (url.OmitHost u), (url.ForceQuery u);
  cbn [negb orb andb url.isSome append].

(** * Lemmas and theorems *)

(** ** The renderer: escaping *)

Lemma escapeByte_cases (c : ascii) :
  (c = "&"%char /\ html.escapeByte c = "&amp;")
  \/ (c = "'"%char /\ html.escapeByte c = "&#39;")
  \/ (c = "<"%char /\ html.escapeByte c = "&lt;")
  \/ (c = ">"%char /\ html.escapeByte c = "&gt;")
  \/ (c = "034"%char /\ html.escapeByte c = "&#34;")
  \/ (special c = false /\ html.escapeByte c = String c EmptyString).
Proof.
  destruct c as [[] [] [] [] [] [] [] []]; pick_case.
Qed.

Lemma escaped_entity (e x : string) :
  In e entities -> escaped (e ++ x) = escaped x.
Proof.
  intros He; simpl in He.
  repeat destruct He as [<-|He]; try contradiction; destruct x; reflexivity.
Qed.

Lemma escapeByte_entity (c : ascii) :
  special c = true -> In (html.escapeByte c) entities.
Proof.
  destruct (escapeByte_cases c)
    as [[-> ->]|[[-> ->]|[[-> ->]|[[-> ->]|[[-> ->]|[Hc ->]]]]]];
    simpl; intros Hs; try tauto; congruence.
Qed.

Lemma escapeByte_plain (c : ascii) :
  special c = false -> html.escapeByte c = String c EmptyString.
Proof.
  destruct (escapeByte_cases c)
    as [[-> _]|[[-> _]|[[-> _]|[[-> _]|[[-> _]|[_ ->]]]]]];
    try discriminate; reflexivity.
Qed.

Lemma special_amp (c : ascii) : special c = false -> Ascii.eqb c "&" = false.
Proof.
  intros Hc. destruct (Ascii.eqb_spec c "&") as [->|]; [discriminate Hc|reflexivity].
Qed.

Lemma EscapeString_escaped (s : string) : escaped (html.EscapeString s) = true.
Proof.
  induction s as [|c s IH]; [reflexivity|]; simpl.
  destruct (special c) eqn:Hc.
  - rewrite escaped_entity by (apply escapeByte_entity; exact Hc). exact IH.
  - rewrite (escapeByte_plain _ Hc); simpl.
    rewrite (special_amp _ Hc), Hc, IH. reflexivity.
Qed.

Lemma decodeSkip_entity (x : string) :
  decodeSkip 0 ("&amp;" ++ x) = String "&" (decodeSkip 0 x)
  /\ decodeSkip 0 ("&#39;" ++ x) = String "'" (decodeSkip 0 x)
  /\ decodeSkip 0 ("&lt;" ++ x) = String "<" (decodeSkip 0 x)
  /\ decodeSkip 0 ("&gt;" ++ x) = String ">" (decodeSkip 0 x)
  /\ decodeSkip 0 ("&#34;" ++ x) = String "034" (decodeSkip 0 x).
Proof.
  destruct x; repeat split; reflexivity.
Qed.

Lemma EscapeString_decode (s : string) :
  decodeEntities (html.EscapeString s) = s.
Proof.
  unfold decodeEntities.
  induction s as [|c s IH]; [reflexivity|].
  change (html.EscapeString (String c s))
    with (html.escapeByte c ++ html.EscapeString s).
  destruct (decodeSkip_entity (html.EscapeString s)) as (E1 & E2 & E3 & E4 & E5).
  destruct (escapeByte_cases c)
    as [[-> ->]|[[-> ->]|[[-> ->]|[[-> ->]|[[-> ->]|[Hc ->]]]]]];
    rewrite ?E1, ?E2, ?E3, ?E4, ?E5, ?IH; try reflexivity.
  simpl. rewrite (special_amp _ Hc), IH. reflexivity.
Qed.

Lemma avoids_app (c : ascii) (a b : string) :
  avoids c a = true -> avoids c b = true -> avoids c (a ++ b) = true.
Proof.
  unfold avoids.
  induction a as [|x a IHa]; simpl; intros Ha Hb; [exact Hb|].
  apply Bool.andb_true_iff in Ha as [Hx Ha].
  rewrite Hx; simpl; auto.
Qed.

Lemma entities_avoid (c : ascii) (e : string) :
  special c = true -> c <> "&"%char -> In e entities -> avoids c e = true.
Proof.
  intros Hs Hamp He.
  destruct c as [[] [] [] [] [] [] [] []]; try discriminate Hs;
    try congruence;
    simpl in He; repeat destruct He as [<-|He]; try contradiction;
    reflexivity.
Qed.

Lemma EscapeString_avoids (c : ascii) (s : string) :
  special c = true -> c <> "&"%char -> avoids c (html.EscapeString s) = true.
Proof.
  intros Hs Hamp.
  induction s as [|x s IH]; [reflexivity|]; simpl.
  apply avoids_app; [|exact IH].
  destruct (special x) eqn:Hx.
  - apply entities_avoid; auto using escapeByte_entity.
  - rewrite (escapeByte_plain _ Hx). unfold avoids; simpl.
    rewrite Bool.andb_true_r.
    destruct (Ascii.eqb_spec x c) as [->|]; [congruence|reflexivity].
Qed.

(** ** The renderer: the shape of the page *)

Lemma string_pair_ind (P : string -> Prop) :
  P EmptyString ->
  (forall c, P (String c EmptyString)) ->
  (forall c d s, P s -> P (String d s) -> P (String c (String d s))) ->
  forall s, P s.
Proof.
  intros H0 H1 H2 s.
  enough (P s /\ forall c, P (String c s)) by tauto.
  induction s as [|d s [IHs IHc]]; split; auto.
Qed.

Lemma render_lit (c : ascii) (ps : list piece) :
  render (lit c ps) = String c (render ps).
Proof. destruct ps as [|[t|v] ps]; reflexivity. Qed.

Lemma formatPieces_cons (c : ascii) (rest : string) (a : list string) :
  formatPieces (String c rest) a
  = if Ascii.eqb c "%" then
      match rest with
      | EmptyString => None
      | String verb rest' =>
          if Ascii.eqb verb "%"
          then option_map (lit "%") (formatPieces rest' a)
          else if (Ascii.eqb verb "s" || Ascii.eqb verb "v")%bool then
            match a with
            | x :: a' => option_map (cons (Hole x)) (formatPieces rest' a')
            | [] => None
            end
          else None
      end
    else option_map (lit c) (formatPieces rest a).
Proof. reflexivity. Qed.

Lemma Sprintf_cons (c : ascii) (rest : string) (a : list string) :
  fmt.Sprintf (String c rest) a
  = if Ascii.eqb c "%" then
      match rest with
      | EmptyString => "%!(NOVERB)" ++ fmt.extra a
      | String verb rest' =>
          if Ascii.eqb verb "%" then String "%" (fmt.Sprintf rest' a)
          else
            match a with
            | [] => "%!" ++ String verb "(MISSING)" ++ fmt.Sprintf rest' []
            | x :: a' =>
                (if (Ascii.eqb verb "s" || Ascii.eqb verb "v")%bool then x
                 else "%!" ++ String verb ("(string=" ++ x ++ ")"))
                ++ fmt.Sprintf rest' a'
            end
      end
    else String c (fmt.Sprintf rest a).
Proof. reflexivity. Qed.

Lemma Sprintf_pieces (format : string) :
  forall a ps, formatPieces format a = Some ps ->
               fmt.Sprintf format a = render ps.
Proof.
  induction format as [|c|c d s IHs IHd] using string_pair_ind; intros a ps.
  - destruct a; simpl; [intros [= <-]; reflexivity|discriminate].
  - simpl. destruct (Ascii.eqb c "%"); [discriminate|].
    destruct a; simpl; [intros [= <-]; reflexivity|discriminate].
  - rewrite formatPieces_cons, Sprintf_cons.
    destruct (Ascii.eqb c "%").
    + destruct (Ascii.eqb d "%").
      * destruct (formatPieces s a) as [qs|] eqn:E; [|discriminate].
        cbn [option_map]. intros [= <-].
        rewrite render_lit, (IHs _ _ E). reflexivity.
      * destruct (Ascii.eqb d "s" || Ascii.eqb d "v")%bool; [|discriminate].
        destruct a as [|x a]; [discriminate|].
        destruct (formatPieces s a) as [qs|] eqn:E; [|discriminate].
        cbn [option_map]. intros [= <-]. rewrite (IHs _ _ E). reflexivity.
    + destruct (formatPieces (String d s) a) as [qs|] eqn:E; [|discriminate].
      cbn [option_map]. intros [= <-].
      rewrite render_lit, (IHd _ _ E). reflexivity.
Qed.

(** ** The renderer: occurrences of a tag *)

Lemma prefix_app_settled (p : string) :
  forall t r, (prefix p t || negb (prefix t p))%bool = true ->
              prefix p (t ++ r) = prefix p t.
Proof.
  induction p as [|a p IH]; intros t r H.
  - destruct t; [destruct r|]; reflexivity.
  - destruct t as [|b t]; [discriminate H|].
    simpl in *. destruct (ascii_dec a b) as [->|n].
    + destruct (ascii_dec b b) as [_|n]; [|congruence]. auto.
    + reflexivity.
Qed.

Lemma occurrences_lit (p t r : string) :
  p <> EmptyString -> settled p t = true ->
  occurrences p (t ++ r) = occurrences p t + occurrences p r.
Proof.
  intros Hp. induction t as [|a t IH]; intros Ht.
  - destruct p; [congruence|]. reflexivity.
  - cbn [settled] in Ht. apply Bool.andb_true_iff in Ht as [Ha Ht].
    change (String a t ++ r) with (String a (t ++ r)).
    cbn [occurrences]. rewrite (IH Ht).
    change (String a (t ++ r)) with (String a t ++ r).
    rewrite (prefix_app_settled _ _ _ Ha). lia.
Qed.

Lemma occurrences_hole (c : ascii) (p v r : string) :
  avoids c v = true ->
  occurrences (String c p) (v ++ r) = occurrences (String c p) r.
Proof.
  unfold avoids. induction v as [|a v IH]; intros Hv; [reflexivity|].
  simpl in Hv. apply Bool.andb_true_iff in Hv as [Ha Hv].
  change (String a v ++ r) with (String a (v ++ r)).
  cbn [occurrences prefix]. rewrite (IH Hv).
  destruct (ascii_dec c a) as [->|_]; [|reflexivity].
  rewrite Ascii.eqb_refl in Ha. discriminate Ha.
Qed.

Lemma occurrences_render (c : ascii) (p : string) (ps : list piece) :
  litsSettled (String c p) ps = true -> holesAvoid c ps ->
  occurrences (String c p) (render ps) = litOccurrences (String c p) ps.
Proof.
  induction ps as [|[t|v] ps IH]; simpl; intros Hl Hh.
  - reflexivity.
  - apply Bool.andb_true_iff in Hl as [Ht Hl].
    rewrite occurrences_lit by (congruence || assumption). auto.
  - destruct Hh as [Hv Hh]. rewrite occurrences_hole by assumption. auto.
Qed.

Lemma tpl_occurrences (c : ascii) (p : string) (n : nat)
      (v1 v2 v3 v4 v5 v6 v7 v8 v9 : string) :
  (forall x1 x2 x3 x4 x5 x6 x7 x8 x9,
      match formatPieces tpl [x1; x2; x3; x4; x5; x6; x7; x8; x9] with
      | Some ps => litsSettled (String c p) ps = true
                   /\ litOccurrences (String c p) ps = n
      | None => False
      end) ->
  Forall (fun v => avoids c v = true) [v1; v2; v3; v4; v5; v6; v7; v8; v9] ->
  occurrences (String c p)
              (fmt.Sprintf tpl [v1; v2; v3; v4; v5; v6; v7; v8; v9]) = n.
Proof.
  intros Hlits Hv.
  specialize (Hlits v1 v2 v3 v4 v5 v6 v7 v8 v9).
  destruct (formatPieces tpl [v1; v2; v3; v4; v5; v6; v7; v8; v9])
    as [ps|] eqn:E; [|contradiction].
  destruct Hlits as [Hs Hn].
  rewrite (Sprintf_pieces _ _ _ E), occurrences_render, Hn; auto.
  revert E. clear -Hv.
  repeat match goal with
         | H : Forall _ (_ :: _) |- _ => inversion H; subst; clear H
         end.
  vm_compute. intros [= <-]. simpl. tauto.
Qed.

Lemma buildHTML_shape (path to : string) (og : OG) :
  buildHTML path to og
  = pageShape (html.EscapeString (Title og))
              (html.EscapeString (Description og))
              (html.EscapeString (Title og))
              (html.EscapeString (Description og))
              (html.EscapeString (Image og))
              (html.EscapeString (origin ++ path))
              (html.EscapeString to) (html.EscapeString to)
              (html.EscapeString to).
Proof. reflexivity. Qed.

Lemma EscapeString_app (a b : string) :
  html.EscapeString (a ++ b) = html.EscapeString a ++ html.EscapeString b.
Proof.
  induction a as [|c a IH]; [reflexivity|].
  cbn [append html.EscapeString]. rewrite IH.
  generalize (html.escapeByte c) as e.
  induction e as [|x e IHe]; [reflexivity|].
  cbn [append]. now rewrite IHe.
Qed.

(** C1.  Every value given to the renderer reaches the page through
    [html.EscapeString], at each of the nine interpolation sites: the page
    is the fixed-shape document with the escaped title at the title text
    and at [og:title], the escaped description at the description meta and
    at [og:description], the escaped image URL at [og:image], the escaped
    page URL (the origin followed by the logical path) at [og:url], and the
    escaped target URL at the canonical [href], in the script string
    literal and in the noscript [href].  An escaped value holds none of
    [<], [>], the two quotes, and no [&] but one that opens an entity, and
    reads back as the value.  Whatever the values are, [<script] occurs
    exactly once in the page (the fixed redirect script); a title that
    contains [<script>alert(1)</script>] carries it as
    [&lt;script&gt;alert(1)&lt;/script&gt;] at both of its sites. *)
Theorem C1_buildHTML_escapes_every_site :
  forall (path to : string) (og : OG),
    buildHTML path to og
    = pageShape (html.EscapeString (Title og))
                (html.EscapeString (Description og))
                (html.EscapeString (Title og))
                (html.EscapeString (Description og))
                (html.EscapeString (Image og))
                (html.EscapeString (origin ++ path))
                (html.EscapeString to) (html.EscapeString to)
                (html.EscapeString to)
    /\ (forall v, escaped (html.EscapeString v) = true
                  /\ decodeEntities (html.EscapeString v) = v)
    /\ occurrences "<script" (buildHTML path to og) = 1
    /\ (forall before after desc img,
           let title :=
             html.EscapeString before
             ++ "&lt;script&gt;alert(1)&lt;/script&gt;"
             ++ html.EscapeString after in
           buildHTML path to
             (mkOG (before ++ "<script>alert(1)</script>" ++ after) desc img)
           = pageShape title (html.EscapeString desc)
                       title (html.EscapeString desc)
                       (html.EscapeString img)
                       (html.EscapeString (origin ++ path))
                       (html.EscapeString to) (html.EscapeString to)
                       (html.EscapeString to)).
Proof.
  intros path to og. split; [apply buildHTML_shape|].
  split; [intros v; split;
          [apply EscapeString_escaped|apply EscapeString_decode]|].
  split.
  - apply tpl_occurrences.
    + intros. vm_compute. split; reflexivity.
    + repeat constructor; apply EscapeString_avoids;
        solve [reflexivity | discriminate].
  - intros before after desc img title. rewrite buildHTML_shape.
    cbn [Title Description Image]. subst title.
    now rewrite !EscapeString_app.
Qed.

(** ** Slices, prefixes and suffixes *)

Lemma length_append (a b : string) :
  String.length (a ++ b) = String.length a + String.length b.
Proof. induction a as [|c a IH]; simpl; [reflexivity|now rewrite IH]. Qed.

Lemma append_nil_r (a : string) : a ++ EmptyString = a.
Proof. induction a as [|c a IH]; simpl; [reflexivity|now rewrite IH]. Qed.

Lemma append_assoc (a b c : string) : (a ++ b) ++ c = a ++ b ++ c.
Proof. induction a as [|x a IH]; simpl; [reflexivity|now rewrite IH]. Qed.

Lemma append_empty (a b : string) :
  a ++ b = EmptyString -> a = EmptyString /\ b = EmptyString.
Proof. destruct a; simpl; [auto|discriminate]. Qed.

Lemma substring_zero (s : string) : substring 0 0 s = EmptyString.
Proof. destruct s; reflexivity. Qed.

Lemma substring_all (s : string) : substring 0 (String.length s) s = s.
Proof. induction s as [|c s IH]; simpl; [reflexivity|now rewrite IH]. Qed.

Lemma substring_app_left (a b : string) :
  substring 0 (String.length a) (a ++ b) = a.
Proof.
  induction a as [|c a IH]; simpl; [apply substring_zero|now rewrite IH].
Qed.

Lemma substring_app_right (a b : string) :
  substring (String.length a) (String.length b) (a ++ b) = b.
Proof. induction a as [|c a IH]; simpl; [apply substring_all|exact IH]. Qed.

Lemma substring_split (n : nat) (s : string) :
  n <= String.length s ->
  substring 0 n s ++ substring n (String.length s - n) s = s.
Proof.
  revert s; induction n as [|n IH]; intros s Hn.
  - rewrite substring_zero, Nat.sub_0_r. apply substring_all.
  - destruct s as [|c s]; simpl in *; [lia|].
    rewrite IH by lia. reflexivity.
Qed.

Lemma length_substring_tail (n : nat) (s : string) :
  n <= String.length s ->
  String.length (substring n (String.length s - n) s) = String.length s - n.
Proof.
  intros Hn. pose proof (substring_split n s Hn) as E.
  apply (f_equal String.length) in E. rewrite length_append in E.
  assert (String.length (substring 0 n s) = n).
  { clear E. revert s Hn; induction n as [|n IH]; intros s Hn.
    - now rewrite substring_zero.
    - destruct s as [|c s]; simpl in *; [lia|]. rewrite IH; lia. }
  lia.
Qed.

Lemma slice_to_nat (s : string) (n : nat) :
  slice_to s (Z.of_nat n) = substring 0 n s.
Proof.
  unfold slice_to, slice. rewrite Z.sub_0_r, Nat2Z.id. reflexivity.
Qed.

Lemma slice_from_nat (s : string) (n : nat) :
  n <= String.length s ->
  slice_from s (Z.of_nat n) = substring n (String.length s - n) s.
Proof.
  intros Hn. unfold slice_from, slice, len.
  rewrite Nat2Z.id, <- Nat2Z.inj_sub, Nat2Z.id by exact Hn. reflexivity.
Qed.

(** [HasSuffix] and [TrimSuffix] against concatenation. *)
Lemma HasSuffix_true (s suffix : string) :
  strings.HasSuffix s suffix = true ->
  s = strings.TrimSuffix s suffix ++ suffix.
Proof.
  unfold strings.TrimSuffix. intros H. rewrite H.
  unfold strings.HasSuffix in H. apply Bool.andb_true_iff in H as [Hl He].
  apply Z.leb_le in Hl. apply String.eqb_eq in He. unfold len in *.
  rewrite <- Nat2Z.inj_sub in * by lia.
  rewrite slice_to_nat. rewrite slice_from_nat in He by lia.
  transitivity
    (substring 0 (String.length s - String.length suffix) s
     ++ substring (String.length s - String.length suffix)
          (String.length s - (String.length s - String.length suffix)) s).
  - symmetry. apply substring_split. lia.
  - now rewrite He.
Qed.

Lemma HasSuffix_app (r suffix : string) :
  strings.HasSuffix (r ++ suffix) suffix = true.
Proof.
  unfold strings.HasSuffix, len. rewrite length_append.
  apply Bool.andb_true_iff; split; [apply Z.leb_le; lia|].
  rewrite <- Nat2Z.inj_sub by lia.
  rewrite slice_from_nat by (rewrite length_append; lia).
  replace (String.length r + String.length suffix - String.length suffix)
    with (String.length r) by lia.
  rewrite length_append.
  replace (String.length r + String.length suffix - String.length r)
    with (String.length suffix) by lia.
  rewrite substring_app_right. apply String.eqb_refl.
Qed.

Lemma TrimSuffix_app (r suffix : string) :
  strings.TrimSuffix (r ++ suffix) suffix = r.
Proof.
  unfold strings.TrimSuffix. rewrite HasSuffix_app.
  unfold len. rewrite length_append, <- Nat2Z.inj_sub by lia.
  rewrite slice_to_nat.
  replace (String.length r + String.length suffix - String.length suffix)
    with (String.length r) by lia.
  apply substring_app_left.
Qed.

Lemma HasSuffix_iff (s suffix : string) :
  strings.HasSuffix s suffix = true <-> exists r, s = r ++ suffix.
Proof.
  split.
  - intros H. eexists. apply HasSuffix_true, H.
  - intros [r ->]. apply HasSuffix_app.
Qed.

Lemma HasPrefix_iff (s pre : string) :
  strings.HasPrefix s pre = true <-> exists r, s = pre ++ r.
Proof.
  unfold strings.HasPrefix, len. rewrite slice_to_nat. split.
  - intros H. apply Bool.andb_true_iff in H as [Hl He].
    apply Z.leb_le in Hl. apply String.eqb_eq in He.
    exists (substring (String.length pre)
                      (String.length s - String.length pre) s).
    pose proof (substring_split (String.length pre) s ltac:(lia)) as E.
    rewrite He in E. now rewrite E.
  - intros [r ->]. rewrite length_append, substring_app_left, String.eqb_refl.
    apply Bool.andb_true_iff; split; [apply Z.leb_le; lia|reflexivity].
Qed.

(** ** Route keys *)

Lemma cleanRoutePath_cases (p : string) :
  (p = EmptyString /\ cleanRoutePath p = "/")
  \/ (p <> EmptyString
      /\ exists q, (q = p \/ (q = "/" ++ p /\ strings.HasPrefix p "/" = false))
                   /\ strings.HasPrefix q "/" = true
                   /\ cleanRoutePath p = strings.TrimSuffix q "/").
Proof.
  unfold cleanRoutePath.
  destruct (String.eqb_spec p EmptyString) as [->|Hp]; [left; auto|right].
  split; [exact Hp|].
  destruct (strings.HasPrefix p "/") eqn:E; simpl.
  - exists p; auto.
  - exists ("/" ++ p). repeat split; auto.
    apply HasPrefix_iff. now exists p.
Qed.

(** The normalised path is empty for the key ["/"] only. *)
Lemma cleanRoutePath_empty (p : string) :
  cleanRoutePath p = EmptyString <-> p = "/".
Proof.
  split; [|intros ->; reflexivity].
  destruct (cleanRoutePath_cases p) as [[-> E]|[Hp (q & Hq & Hpre & E)]];
    rewrite E; [discriminate|].
  intros Ht.
  destruct (strings.HasSuffix q "/") eqn:Hs.
  - apply HasSuffix_true in Hs. rewrite Ht in Hs. simpl in Hs.
    destruct Hq as [->|[-> _]]; [exact Hs|].
    injection Hs as ->. congruence.
  - unfold strings.TrimSuffix in Ht. rewrite Hs in Ht.
    destruct Hq as [->|[-> _]]; [congruence|discriminate].
Qed.

(** Apart from the key ["/"] and the keys that end in two slashes, the
    normalised path begins with a slash and does not end with one, the
    root ["/"] of the empty key apart. *)
Lemma cleanRoutePath_wellformed (p : string) :
  p <> "/" -> strings.HasSuffix p "//" = false ->
  strings.HasPrefix (cleanRoutePath p) "/" = true
  /\ (cleanRoutePath p = "/"
      \/ strings.HasSuffix (cleanRoutePath p) "/" = false).
Proof.
  intros Hroot Hss.
  destruct (cleanRoutePath_cases p) as [[-> E]|[Hp (q & Hq & Hpre & E)]];
    rewrite E; [split; [reflexivity|now left]|].
  assert (Hqss : strings.HasSuffix q "//" = false).
  { destruct Hq as [->|[-> _]]; [exact Hss|].
    destruct (strings.HasSuffix ("/" ++ p) "//") eqn:Hs; [|reflexivity].
    apply HasSuffix_iff in Hs as [r Hr].
    destruct r as [|c r]; simpl in Hr.
    - injection Hr as ->. now elim Hroot.
    - injection Hr as _ ->.
      rewrite HasSuffix_app in Hss. discriminate Hss. }
  destruct (strings.HasSuffix q "/") eqn:Hs.
  - pose proof (HasSuffix_true _ _ Hs) as Eq.
    remember (strings.TrimSuffix q "/") as r eqn:Er. clear Er.
    apply HasPrefix_iff in Hpre as [x Hx].
    destruct r as [|c r].
    + exfalso. simpl in Eq. destruct Hq as [->|[-> _]];
        [now elim Hroot|].
      injection Eq as ->. now elim Hp.
    + assert (Ec : c = "/"%char).
      { rewrite Hx in Eq. simpl in Eq. now injection Eq as <- _. }
      subst c.
      split; [apply HasPrefix_iff; now exists r|].
      right. destruct (strings.HasSuffix (String "/" r) "/") eqn:Hr;
        [|reflexivity].
      apply HasSuffix_iff in Hr as [r2 Hr2].
      rewrite Hr2, append_assoc in Eq.
      change ("/" ++ "/") with "//" in Eq.
      rewrite Eq, HasSuffix_app in Hqss. discriminate Hqss.
  - unfold strings.TrimSuffix. rewrite Hs. auto.
Qed.

(** C3 (the code departs from the claim).  The key ["/"], a non-empty key,
    is normalised to the empty string, which does not begin with ['/']
    and is not the root path ["/"]; and a key that ends in two slashes
    keeps one of them. *)
Theorem C3_cleanRoutePath_root_key :
  cleanRoutePath "/" = EmptyString
  /\ strings.HasPrefix (cleanRoutePath "/") "/" = false
  /\ cleanRoutePath "a//" = "/a/"
  /\ strings.HasSuffix (cleanRoutePath "a//") "/" = true.
Proof. repeat split; reflexivity. Qed.

(** ** White space and [strings.TrimSpace] *)

Lemma list_length_ind (A : Type) (P : list A -> Prop) :
  (forall l, (forall l', List.length l' < List.length l -> P l') -> P l) ->
  forall l, P l.
Proof.
  intros H l.
  enough (forall n l, List.length l < n -> P l) by eauto.
  induction n as [|n IH]; intros l' Hl; [lia|].
  apply H. intros l'' Hl'. apply IH. lia.
Qed.

Lemma trimLeft_cons (a : ascii) (s1 : list ascii) :
  strings.trimLeft (a :: s1)
  = if strings.asciiSpace a then strings.trimLeft s1
    else match s1 with
         | [] => a :: s1
         | b :: s2 =>
             if strings.space2 a b then strings.trimLeft s2
             else match s2 with
                  | [] => a :: s1
                  | c :: s3 =>
                      if strings.space3 a b c then strings.trimLeft s3
                      else a :: s1
                  end
         end.
Proof. reflexivity. Qed.

Lemma trimRightRev_cons (a : ascii) (s1 : list ascii) :
  strings.trimRightRev (a :: s1)
  = if strings.asciiSpace a then strings.trimRightRev s1
    else match s1 with
         | [] => a :: s1
         | b :: s2 =>
             if strings.space2 b a then strings.trimRightRev s2
             else match s2 with
                  | [] => a :: s1
                  | c :: s3 =>
                      if strings.space3 c b a then strings.trimRightRev s3
                      else a :: s1
                  end
         end.
Proof. reflexivity. Qed.

Lemma trimLeft_noLeadingSpace (l : list ascii) :
  noLeadingSpace (strings.trimLeft l) = true.
Proof.
  induction l as [l IH] using list_length_ind.
  destruct l as [|a s1]; [reflexivity|]. rewrite trimLeft_cons.
  destruct (strings.asciiSpace a) eqn:Ea; [apply IH; simpl; lia|].
  destruct s1 as [|b s2]; [simpl; now rewrite Ea|].
  destruct (strings.space2 a b) eqn:Eb; [apply IH; simpl; lia|].
  destruct s2 as [|c s3]; [simpl; now rewrite Ea, Eb|].
  destruct (strings.space3 a b c) eqn:Ec; [apply IH; simpl; lia|].
  simpl. now rewrite Ea, Eb, Ec.
Qed.

Lemma trimRightRev_noTrailingSpace (l : list ascii) :
  noTrailingSpaceRev (strings.trimRightRev l) = true.
Proof.
  induction l as [l IH] using list_length_ind.
  destruct l as [|a s1]; [reflexivity|]. rewrite trimRightRev_cons.
  destruct (strings.asciiSpace a) eqn:Ea; [apply IH; simpl; lia|].
  destruct s1 as [|b s2]; [simpl; now rewrite Ea|].
  destruct (strings.space2 b a) eqn:Eb; [apply IH; simpl; lia|].
  destruct s2 as [|c s3]; [simpl; now rewrite Ea, Eb|].
  destruct (strings.space3 c b a) eqn:Ec; [apply IH; simpl; lia|].
  simpl. now rewrite Ea, Eb, Ec.
Qed.

Lemma trimRightRev_suffix (l : list ascii) :
  exists d, l = (d ++ strings.trimRightRev l)%list.
Proof.
  induction l as [l IH] using list_length_ind.
  assert (step : forall d l', List.length l' < List.length l ->
                   l = (d ++ l')%list ->
                   exists d', l = (d' ++ strings.trimRightRev l')%list).
  { intros d l' Hl ->. destruct (IH l' Hl) as [d' E].
    exists (d ++ d')%list. rewrite <- List.app_assoc, <- E. reflexivity. }
  destruct l as [|a s1]; [now exists []|]. rewrite trimRightRev_cons.
  destruct (strings.asciiSpace a); [apply (step [a]); simpl; auto|].
  destruct s1 as [|b s2]; [now exists []|].
  destruct (strings.space2 b a); [apply (step [a; b]); simpl; auto|].
  destruct s2 as [|c s3]; [now exists []|].
  destruct (strings.space3 c b a); [apply (step [a; b; c]); simpl; auto|].
  now exists [].
Qed.

Lemma list_of_append (a b : string) :
  list_ascii_of_string (a ++ b)
  = (list_ascii_of_string a ++ list_ascii_of_string b)%list.
Proof. induction a as [|c a IH]; simpl; [reflexivity|now rewrite IH]. Qed.

Lemma noLeadingSpace_prefix (t : list ascii) (w r : string) :
  noLeadingSpace t = true -> isSpaceEncoding w = true ->
  t <> list_ascii_of_string (w ++ r).
Proof.
  intros Ht Hw ->.
  destruct w as [|a [|b [|c [|d w]]]]; simpl in Hw; try discriminate;
    simpl in Ht; rewrite ?Hw in Ht; simpl in Ht; try discriminate.
  - apply Bool.andb_true_iff in Ht as [_ Ht]. discriminate.
  - apply Bool.andb_true_iff in Ht as [_ Ht].
    apply Bool.andb_true_iff in Ht as [_ Ht]. discriminate.
Qed.

Lemma noTrailingSpaceRev_suffix (t : list ascii) (w r : string) :
  noTrailingSpaceRev (rev t) = true -> isSpaceEncoding w = true ->
  t <> list_ascii_of_string (r ++ w).
Proof.
  intros Ht Hw ->. rewrite list_of_append, rev_app_distr in Ht.
  destruct w as [|a [|b [|c [|d w]]]]; simpl in Hw; try discriminate;
    simpl in Ht; rewrite ?Hw in Ht; simpl in Ht; try discriminate.
  - apply Bool.andb_true_iff in Ht as [_ Ht]. discriminate.
  - apply Bool.andb_true_iff in Ht as [_ Ht].
    apply Bool.andb_true_iff in Ht as [_ Ht]. discriminate.
Qed.

Lemma TrimSpace_trimmed (s : string) : trimmed (strings.TrimSpace s).
Proof.
  unfold strings.TrimSpace.
  set (T := strings.trimLeft (list_ascii_of_string s)).
  destruct (trimRightRev_suffix (rev T)) as [d E].
  set (R := strings.trimRightRev (rev T)) in *.
  assert (ET : T = (rev R ++ rev d)%list).
  { rewrite <- rev_app_distr, <- E, rev_involutive. reflexivity. }
  intros w r Hw; split; intros H;
    apply (f_equal list_ascii_of_string) in H;
    rewrite list_ascii_of_string_of_list_ascii in H.
  - apply (noLeadingSpace_prefix T w (r ++ string_of_list_ascii (rev d)));
      [apply trimLeft_noLeadingSpace|exact Hw|].
    rewrite ET, H, <- append_assoc, (list_of_append (w ++ r)).
    now rewrite list_ascii_of_string_of_list_ascii.
  - apply (noTrailingSpaceRev_suffix (rev R) w r); [|exact Hw|exact H].
    rewrite rev_involutive. apply trimRightRev_noTrailingSpace.
Qed.



(** ** White space: what [strings.TrimSpace] removes *)

Lemma blank_app (a b : string) : blank a -> blank b -> blank (a ++ b).
Proof.
  intros Ha Hb. induction Ha as [|w s Hw Hs IH]; [exact Hb|].
  rewrite append_assoc. now constructor.
Qed.

Lemma blank_one (w : string) : isSpaceEncoding w = true -> blank w.
Proof.
  intros Hw. rewrite <- (append_nil_r w). constructor; [exact Hw|constructor].
Qed.

Lemma string_of_app (a b : list ascii) :
  string_of_list_ascii (a ++ b)
  = string_of_list_ascii a ++ string_of_list_ascii b.
Proof. induction a as [|c a IH]; simpl; [reflexivity|now rewrite IH]. Qed.

(** [trimLeft] removes a blank prefix. *)
Lemma trimLeft_prefix (l : list ascii) :
  exists d, blank (string_of_list_ascii d) /\ l = (d ++ strings.trimLeft l)%list.
Proof.
  induction l as [l IH] using list_length_ind.
  assert (step : forall w l', List.length l' < List.length l ->
                   isSpaceEncoding (string_of_list_ascii w) = true ->
                   l = (w ++ l')%list ->
                   exists d, blank (string_of_list_ascii d)
                             /\ l = (d ++ strings.trimLeft l')%list).
  { intros w l' Hl Hw ->. destruct (IH l' Hl) as (d & Hd & E).
    exists (w ++ d)%list. split.
    - rewrite string_of_app. now constructor.
    - rewrite <- List.app_assoc, <- E. reflexivity. }
  assert (none : exists d, blank (string_of_list_ascii d) /\ l = (d ++ l)%list).
  { exists []. split; [constructor|reflexivity]. }
  destruct l as [|a s1]; [exact none|]. rewrite trimLeft_cons.
  destruct (strings.asciiSpace a) eqn:Ea;
    [apply (step [a]); simpl; auto|].
  destruct s1 as [|b s2]; [exact none|].
  destruct (strings.space2 a b) eqn:Eb;
    [apply (step [a; b]); simpl; auto|].
  destruct s2 as [|c s3]; [exact none|].
  destruct (strings.space3 a b c) eqn:Ec;
    [apply (step [a; b; c]); simpl; auto|].
  exact none.
Qed.

(** [trimRightRev] removes, from the reversed bytes, a blank suffix. *)
Lemma trimRightRev_blank (l : list ascii) :
  exists d, blank (string_of_list_ascii (rev d))
            /\ l = (d ++ strings.trimRightRev l)%list.
Proof.
  induction l as [l IH] using list_length_ind.
  assert (step : forall w l', List.length l' < List.length l ->
                   isSpaceEncoding (string_of_list_ascii (rev w)) = true ->
                   l = (w ++ l')%list ->
                   exists d, blank (string_of_list_ascii (rev d))
                             /\ l = (d ++ strings.trimRightRev l')%list).
  { intros w l' Hl Hw ->. destruct (IH l' Hl) as (d & Hd & E).
    exists (w ++ d)%list. split.
    - rewrite rev_app_distr, string_of_app.
      apply blank_app; [exact Hd|now apply blank_one].
    - rewrite <- List.app_assoc, <- E. reflexivity. }
  assert (none : exists d, blank (string_of_list_ascii (rev d))
                           /\ l = (d ++ l)%list).
  { exists []. split; [constructor|reflexivity]. }
  destruct l as [|a s1]; [exact none|]. rewrite trimRightRev_cons.
  destruct (strings.asciiSpace a) eqn:Ea;
    [apply (step [a]); simpl; auto|].
  destruct s1 as [|b s2]; [exact none|].
  destruct (strings.space2 b a) eqn:Eb;
    [apply (step [a; b]); simpl; auto|].
  destruct s2 as [|c s3]; [exact none|].
  destruct (strings.space3 c b a) eqn:Ec;
    [apply (step [a; b; c]); simpl; auto|].
  exact none.
Qed.

(** [TrimSpace] removes white space, and nothing else, at the two ends. *)
Lemma TrimSpace_between (s : string) :
  exists a b, blank a /\ blank b /\ s = a ++ strings.TrimSpace s ++ b.
Proof.
  unfold strings.TrimSpace.
  destruct (trimLeft_prefix (list_ascii_of_string s)) as (d & Hd & El).
  set (T := strings.trimLeft (list_ascii_of_string s)) in *.
  destruct (trimRightRev_blank (rev T)) as (e & He & Er).
  set (R := strings.trimRightRev (rev T)) in *.
  exists (string_of_list_ascii d), (string_of_list_ascii (rev e)).
  split; [exact Hd|]. split; [exact He|].
  rewrite <- !string_of_app, <- rev_app_distr, <- Er, rev_involutive, <- El.
  now rewrite string_of_list_ascii_of_string.
Qed.

(** ** Extraction *)

Section Extraction.
Context `{UnicodeTables}.

Lemma readAttrs_from (attrs : list xhtml.Attribute) :
  forall p0 n0 c0,
    fold_left readAttr attrs (p0, n0, c0)
    = (match lastAttr "property" attrs with
       | Some v => strings.ToLower (strings.TrimSpace v)
       | None => p0
       end,
       match lastAttr "name" attrs with
       | Some v => strings.ToLower (strings.TrimSpace v)
       | None => n0
       end,
       match lastAttr "content" attrs with
       | Some v => strings.TrimSpace v
       | None => c0
       end).
Proof.
  induction attrs as [|a attrs IH]; intros p0 n0 c0; [reflexivity|].
  cbn [fold_left lastAttr]. unfold readAttr at 2.
  destruct (String.eqb_spec (strings.ToLower (xhtml.Key a)) "property") as [E|_].
  - rewrite IH, E. cbn.
    destruct (lastAttr "property" attrs), (lastAttr "name" attrs),
      (lastAttr "content" attrs); reflexivity.
  - destruct (String.eqb_spec (strings.ToLower (xhtml.Key a)) "name") as [E|_].
    + rewrite IH, E. cbn.
      destruct (lastAttr "property" attrs), (lastAttr "name" attrs),
        (lastAttr "content" attrs); reflexivity.
    + destruct (String.eqb_spec (strings.ToLower (xhtml.Key a)) "content")
        as [E|_]; rewrite IH;
        destruct (lastAttr "property" attrs), (lastAttr "name" attrs),
          (lastAttr "content" attrs); reflexivity.
Qed.

Lemma readAttrs_spec (n : xhtml.Node) :
  readAttrs (xhtml.Attr n) = (metaProperty n, metaName n, metaContent n).
Proof. apply readAttrs_from. Qed.

Lemma visitMeta_spec (n : xhtml.Node) (og : OG) :
  visitMeta n og
  = if metaKey n =? "og:title" then setTitle og (metaContent n)
    else if metaKey n =? "og:description"
         then setDescription og (metaContent n)
         else if metaKey n =? "og:image" then setImage og (metaContent n)
              else og.
Proof. unfold visitMeta. rewrite readAttrs_spec. reflexivity. Qed.

Lemma f_preorder (n : xhtml.Node) :
  forall og, f n og = fold_left visit (preorder n) og.
Proof.
  induction n as [n IH] using Node_forall_ind. intros og.
  destruct n as [ty data attrs cs]. cbn [f preorder fold_left xhtml.Children] in *.
  fold (visit og (xhtml.mkNode ty data attrs cs)).
  generalize (visit og (xhtml.mkNode ty data attrs cs)). clear og.
  induction IH as [|c cs Hc _ IHcs]; intros og; [reflexivity|].
  cbn [fold_left flat_map]. rewrite fold_left_app, <- Hc. apply IHcs.
Qed.

Lemma visit_field (key : string) (og : OG) (n : xhtml.Node) :
  In key recognised ->
  fieldOf key (visit og n)
  = if isMeta n && (metaKey n =? key) then metaContent n else fieldOf key og.
Proof.
  intros Hk. unfold visit. destruct (isMeta n); [|reflexivity].
  rewrite visitMeta_spec. cbn [andb].
  simpl in Hk. repeat destruct Hk as [<-|Hk]; try contradiction;
    repeat match goal with
           | |- context [metaKey n =? ?k] =>
               let E := fresh "E" in
               destruct (String.eqb_spec (metaKey n) k) as [E|E];
               [try rewrite E in *|]
           end; try reflexivity; try discriminate; try congruence.
Qed.

Lemma last_cons_default (A : Type) (x d : A) (l : list A) :
  last (x :: l) d = last l x.
Proof.
  revert x d; induction l as [|y l IH]; intros x d; [reflexivity|].
  change (last (x :: y :: l) d) with (last (y :: l) d).
  rewrite !IH. reflexivity.
Qed.

Lemma fold_visit_field (key : string) (nodes : list xhtml.Node) :
  In key recognised ->
  forall og,
    fieldOf key (fold_left visit nodes og)
    = last (map metaContent
                (filter (fun n => isMeta n && (metaKey n =? key)) nodes))
           (fieldOf key og).
Proof.
  intros Hk. induction nodes as [|n nodes IH]; intros og; [reflexivity|].
  cbn [fold_left filter]. rewrite IH, (visit_field _ _ _ Hk).
  destruct (isMeta n && (metaKey n =? key)); [|reflexivity].
  cbn [map]. now rewrite last_cons_default.
Qed.

Lemma f_field (key : string) (doc : xhtml.Node) (og : OG) :
  In key recognised ->
  fieldOf key (f doc og)
  = last (map metaContent (tagged key doc)) (fieldOf key og).
Proof. intros Hk. rewrite f_preorder. now apply fold_visit_field. Qed.

End Extraction.

(** ** The fallbacks *)

Section Fallbacks.
Context `{UnicodeTables}.

Lemma applyFallbacks_Title (cfg : Config) (to : string) (og : OG) :
  Title (applyFallbacks cfg to og)
  = if Title og =? EmptyString then "UniGoods" else Title og.
Proof.
  unfold applyFallbacks. destruct og as [t d i].
  cbn [Title Description Image].
  destruct (String.eqb_spec i EmptyString),
    (String.eqb_spec (GlobalOG cfg) EmptyString);
    cbn [Title Description Image setImage setTitle setDescription negb andb];
    destruct (String.eqb_spec t EmptyString);
    cbn [Title Description Image setImage setTitle setDescription negb andb];
    destruct (String.eqb_spec d EmptyString);
    cbn [Title Description Image setImage setTitle setDescription negb andb];
    fallback_cases.
Qed.

Lemma applyFallbacks_Description (cfg : Config) (to : string) (og : OG) :
  Description (applyFallbacks cfg to og)
  = if Description og =? EmptyString then "UniGoods link" else Description og.
Proof.
  unfold applyFallbacks. destruct og as [t d i].
  cbn [Title Description Image].
  destruct (String.eqb_spec i EmptyString),
    (String.eqb_spec (GlobalOG cfg) EmptyString);
    cbn [Title Description Image setImage setTitle setDescription negb andb];
    destruct (String.eqb_spec t EmptyString);
    cbn [Title Description Image setImage setTitle setDescription negb andb];
    destruct (String.eqb_spec d EmptyString);
    cbn [Title Description Image setImage setTitle setDescription negb andb];
    fallback_cases.
Qed.

Lemma applyFallbacks_Image (cfg : Config) (to : string) (og : OG) :
  Image (applyFallbacks cfg to og)
  = if fallbackImage cfg og =? EmptyString then EmptyString
    else resolve (fallbackImage cfg og) to.
Proof.
  unfold applyFallbacks, fallbackImage, resolve. destruct og as [t d i].
  cbn [Title Description Image].
  destruct (String.eqb_spec i EmptyString),
    (String.eqb_spec (GlobalOG cfg) EmptyString);
    cbn [Title Description Image setImage setTitle setDescription negb andb];
    destruct (String.eqb_spec t EmptyString);
    cbn [Title Description Image setImage setTitle setDescription negb andb];
    destruct (String.eqb_spec d EmptyString);
    cbn [Title Description Image setImage setTitle setDescription negb andb];
    fallback_cases.
Qed.

End Fallbacks.

(** ** Extraction: the claims *)

Section ExtractionClaims.
Context `{UnicodeTables}.

(** C5.  The walk visits the nodes in document order (depth first) and
    every matching [meta] element overwrites the field: the title of the
    result is the content of the last [meta] element, in document order,
    whose key is [og:title], and the title the walk started with when
    there is none; likewise for the description and the image.
    [parseOGHTML] runs the walk from the empty metadata on the parsed
    document.  A document with the two tags [og:title] = ["A"] and then
    [og:title] = ["B"] yields the title ["B"]. *)
Theorem C5_last_matching_tag_wins :
  forall (doc : xhtml.Node) (og : OG),
    Title (f doc og) = last (map metaContent (tagged "og:title" doc)) (Title og)
    /\ Description (f doc og)
       = last (map metaContent (tagged "og:description" doc)) (Description og)
    /\ Image (f doc og) = last (map metaContent (tagged "og:image" doc)) (Image og)
    /\ (forall (world : Environment) (body base : string),
           Title (parseOGHTML body base)
           = match htmlParse body with
             | Ok d => last (map metaContent (tagged "og:title" d)) EmptyString
             | Err _ => EmptyString
             end)
    /\ Title (f (documentWith
                   [metaTag [("property", "og:title"); ("content", "A")];
                    metaTag [("property", "og:title"); ("content", "B")]])
                emptyOG) = "B".
Proof.
  intros doc og.
  split; [apply (f_field "og:title"); simpl; auto|].
  split; [apply (f_field "og:description"); simpl; auto|].
  split; [apply (f_field "og:image"); simpl; auto|].
  split; [|reflexivity].
  intros world body base. unfold parseOGHTML.
  destruct (htmlParse body) as [d|e]; [|reflexivity].
  apply (f_field "og:title"); simpl; auto.
Qed.



End ExtractionClaims.



(** ** The resolver *)

Section Resolver.
Context `{UnicodeTables}.

Lemma Parse_empty : url.Parse EmptyString = Ok url.emptyURL.
Proof. reflexivity. Qed.

Lemma nonEmpty_true (s : string) : s <> EmptyString -> url.nonEmpty s = true.
Proof.
  intros Hs. unfold url.nonEmpty. apply String.eqb_neq in Hs. now rewrite Hs.
Qed.

Lemma nonEmpty_false (s : string) : s = EmptyString -> url.nonEmpty s = false.
Proof. intros ->. reflexivity. Qed.

(** The branches of [absolutize], by what the two parses give. *)
Lemma absolutize_reference_error (raw baseStr : string) (e : error) :
  url.Parse raw = Err e -> absolutize raw baseStr = (raw, Some e).
Proof.
  intros Hp. unfold absolutize.
  destruct (String.eqb_spec raw EmptyString) as [->|_].
  - rewrite Parse_empty in Hp. discriminate Hp.
  - now rewrite Hp.
Qed.

Lemma absolutize_absolute (raw baseStr : string) (u : url.URL) :
  url.Parse raw = Ok u -> url.Scheme u <> EmptyString ->
  absolutize raw baseStr = (url.URL_String u, None).
Proof.
  intros Hp Hs. unfold absolutize.
  destruct (String.eqb_spec raw EmptyString) as [->|_].
  - rewrite Parse_empty in Hp. injection Hp as <-. now elim Hs.
  - rewrite Hp. unfold url.IsAbs. now rewrite (nonEmpty_true _ Hs).
Qed.

Lemma absolutize_base_error (raw baseStr : string) (u : url.URL) (e : error) :
  raw <> EmptyString -> url.Parse raw = Ok u -> url.Scheme u = EmptyString ->
  url.Parse baseStr = Err e -> absolutize raw baseStr = (raw, Some e).
Proof.
  intros Hr Hp Hs Hb. unfold absolutize.
  apply String.eqb_neq in Hr. rewrite Hr, Hp. unfold url.IsAbs.
  now rewrite (nonEmpty_false _ Hs), Hb.
Qed.

Lemma absolutize_protocol_relative (raw baseStr : string) (u base : url.URL) :
  url.Parse raw = Ok u -> url.Scheme u = EmptyString ->
  url.Host u <> EmptyString -> url.Parse baseStr = Ok base ->
  absolutize raw baseStr
  = (url.URL_String (url.setScheme (url.Scheme base) u), None).
Proof.
  intros Hp Hs Hh Hb. unfold absolutize.
  destruct (String.eqb_spec raw EmptyString) as [->|_].
  - rewrite Parse_empty in Hp. injection Hp as <-. now elim Hh.
  - rewrite Hp. unfold url.IsAbs.
    rewrite (nonEmpty_false _ Hs), Hb, (nonEmpty_true _ Hh), Hs.
    reflexivity.
Qed.

Lemma absolutize_relative (raw baseStr : string) (u base : url.URL) :
  raw <> EmptyString -> url.Parse raw = Ok u ->
  url.Scheme u = EmptyString -> url.Host u = EmptyString ->
  url.Parse baseStr = Ok base ->
  absolutize raw baseStr
  = (url.URL_String (url.ResolveReference base u), None).
Proof.
  intros Hr Hp Hs Hh Hb. unfold absolutize.
  apply String.eqb_neq in Hr. rewrite Hr, Hp. unfold url.IsAbs.
  now rewrite (nonEmpty_false _ Hs), Hb, (nonEmpty_false _ Hh).
Qed.

(** C7, as amended.  [absolutize] returns the empty reference as it is;
    the normalised reference ([String] of its parse) when it parses with
    a scheme, with or without a host; the reference with the scheme of
    the base when it parses with a host and no scheme and the base
    parses; and in the remaining case (neither scheme nor host), the base
    parsing too, the reference resolved against the base by
    [ResolveReference].  The documented examples hold. *)
Theorem C7_absolutize_cases :
  forall (raw baseStr : string) (u base : url.URL),
    absolutize EmptyString baseStr = (EmptyString, None)
    /\ (url.Parse raw = Ok u -> url.Scheme u <> EmptyString ->
        absolutize raw baseStr = (url.URL_String u, None))
    /\ (url.Parse raw = Ok u -> url.Scheme u = EmptyString ->
        url.Host u <> EmptyString -> url.Parse baseStr = Ok base ->
        absolutize raw baseStr
        = (url.URL_String (url.setScheme (url.Scheme base) u), None))
    /\ (raw <> EmptyString -> url.Parse raw = Ok u ->
        url.Scheme u = EmptyString -> url.Host u = EmptyString ->
        url.Parse baseStr = Ok base ->
        absolutize raw baseStr
        = (url.URL_String (url.ResolveReference base u), None))
    /\ absolutize "/img.png" "https://example.com/a/b"
       = ("https://example.com/img.png", None)
    /\ absolutize "//cdn.x.com/i.png" "https://example.com/a"
       = ("https://cdn.x.com/i.png", None)
    /\ absolutize "https://full.com/i.png" "https://example.com"
       = ("https://full.com/i.png", None).
Proof.
  intros raw baseStr u base.
  split; [reflexivity|].
  split; [intros; now apply absolutize_absolute|].
  split; [intros; now apply absolutize_protocol_relative|].
  split; [intros; now apply absolutize_relative|].
  repeat split; vm_compute; reflexivity.
Qed.

(** C8, as amended.  When the reference does not parse, and when it
    parses without a scheme and the base does not parse, [absolutize]
    returns the reference as it was given, with the error, and the
    defaulting step keeps the image it had.  When the reference parses
    with a scheme the base is not looked at: the normalised reference is
    returned, whether the base parses or not. *)
Theorem C8_resolution_failure :
  forall (raw baseStr : string) (u : url.URL) (e : error)
         (cfg : Config) (og : OG),
    (url.Parse raw = Err e -> absolutize raw baseStr = (raw, Some e))
    /\ (raw <> EmptyString -> url.Parse raw = Ok u ->
        url.Scheme u = EmptyString -> url.Parse baseStr = Err e ->
        absolutize raw baseStr = (raw, Some e))
    /\ (snd (absolutize (fallbackImage cfg og) baseStr) = Some e ->
        Image (applyFallbacks cfg baseStr og) = fallbackImage cfg og)
    /\ (url.Parse raw = Ok u -> url.Scheme u <> EmptyString ->
        absolutize raw baseStr = (url.URL_String u, None)).
Proof.
  intros raw baseStr u e cfg og.
  split; [apply absolutize_reference_error|].
  split; [intros; now apply (absolutize_base_error _ _ u)|].
  split; [|apply absolutize_absolute].
  intros He. rewrite applyFallbacks_Image. unfold resolve.
  destruct (absolutize (fallbackImage cfg og) baseStr) as [abs [e'|]];
    [|discriminate He].
  now destruct (String.eqb_spec (fallbackImage cfg og) EmptyString) as [->|].
Qed.

End Resolver.

(** C8 as stated fails: the base [":"] does not parse, and the reference
    [HTTP://example.com/a] comes back with its scheme in lower case. *)
Lemma C8_counterexample :
  @url.Parse asciiTables ":" = Err (errorString "missing protocol scheme")
  /\ @absolutize asciiTables "HTTP://example.com/a" ":"
     = ("http://example.com/a", None)
  /\ fst (@absolutize asciiTables "HTTP://example.com/a" ":")
     <> "HTTP://example.com/a".
Proof.
  split; [vm_compute; reflexivity|].
  split; [vm_compute; reflexivity|].
  vm_compute. discriminate.
Qed.

(** C7 as stated fails: the reference [file:///a/../b] has a scheme and
    no host, so that it is not an absolute URL in the sense of the claim
    and falls under relative resolution, which removes the dot segments;
    [absolutize] returns it with its dot segments, the base unread. *)
Lemma C7_counterexample :
  match @url.Parse asciiTables "file:///a/../b",
        @url.Parse asciiTables "https://example.com/" with
  | Ok u, Ok base =>
      url.Scheme u = "file" /\ url.Host u = EmptyString
      /\ url.URL_String (url.ResolveReference base u) = "file:///b"
      /\ @absolutize asciiTables "file:///a/../b" "https://example.com/"
         = ("file:///a/../b", None)
  | _, _ => False
  end.
Proof. vm_compute. repeat split; reflexivity. Qed.

(** A witness of C7: the protocol-relative example, case by case. *)
Lemma C7_witness :
  @absolutize asciiTables "//cdn.x.com/i.png" "https://example.com/a"
  = (url.URL_String
       (url.setScheme "https"
          (url.setPathFields "/i.png" EmptyString
             (url.setHost "cdn.x.com" url.emptyURL))), None)
  /\ @absolutize asciiTables "mailto:Shop@Example.com" ":"
     = ("mailto:Shop@Example.com", None)
  /\ @absolutize asciiTables "../i.png" "https://example.com/a/b"
     = ("https://example.com/i.png", None).
Proof.
  split; [|split].
  - apply (proj1 (proj2 (proj2
      (@C7_absolutize_cases asciiTables "//cdn.x.com/i.png"
         "https://example.com/a"
         (url.setPathFields "/i.png" EmptyString
            (url.setHost "cdn.x.com" url.emptyURL))
         (url.setPathFields "/a" EmptyString
            (url.setHost "example.com"
               (url.setScheme "https" url.emptyURL)))))));
      solve [vm_compute; reflexivity | discriminate].
  - apply (proj1 (proj2
      (@C7_absolutize_cases asciiTables "mailto:Shop@Example.com" ":"
         (url.setOpaque "Shop@Example.com"
            (url.setScheme "mailto" url.emptyURL))
         url.emptyURL)));
      solve [vm_compute; reflexivity | discriminate].
  - rewrite (proj1 (proj2 (proj2 (proj2
      (@C7_absolutize_cases asciiTables "../i.png" "https://example.com/a/b"
         (url.setPathFields "../i.png" EmptyString url.emptyURL)
         (url.setPathFields "/a/b" EmptyString
            (url.setHost "example.com"
               (url.setScheme "https" url.emptyURL)))))))) ;
      solve [vm_compute; reflexivity | discriminate].
Defined.

(** A witness of C8: a reference with a bad escape, and a relative
    reference against a base that does not parse. *)
Lemma C8_witness :
  @absolutize asciiTables "/a%zz" "https://example.com/"
  = ("/a%zz", Some (EscapeError "%zz"))
  /\ @absolutize asciiTables "/og.png" ":"
     = ("/og.png", Some (errorString "missing protocol scheme")).
Proof.
  split.
  - apply (proj1 (@C8_resolution_failure asciiTables "/a%zz"
                    "https://example.com/" url.emptyURL (EscapeError "%zz")
                    (Build_Config EmptyString EmptyString EmptyString [])
                    emptyOG)).
    vm_compute; reflexivity.
  - apply (proj1 (proj2 (@C8_resolution_failure asciiTables "/og.png" ":"
                    (url.setPathFields "/og.png" EmptyString url.emptyURL)
                    (errorString "missing protocol scheme")
                    (Build_Config EmptyString EmptyString EmptyString [])
                    emptyOG)));
      solve [vm_compute; reflexivity | discriminate].
Defined.

(** ** The text of a URL *)

(** A URL whose [String] is empty has neither a scheme nor a host. *)
Lemma URL_String_empty (u : url.URL) :
  url.URL_String u = EmptyString ->
  url.Scheme u = EmptyString /\ url.Host u = EmptyString.
Proof.
  unfold url.URL_String, url.nonEmpty. url_atoms u;
    try (intros _; split; assumption);
    repeat match goal with
           | |- context [url.firstByteIsNot ?c ?p] =>
               destruct (url.firstByteIsNot c p); cbn [negb orb andb append]
           | |- context [?x =? EmptyString] =>
               destruct (String.eqb_spec x EmptyString); cbn [negb orb andb append]
           | |- context [if ?b then _ else _] => destruct b
           end;
    intros E;
    repeat match goal with
           | E : _ ++ _ = EmptyString |- _ =>
               let E' := fresh "E" in
               apply append_empty in E as [E E']
           end;
    try discriminate; try congruence.
Qed.

Lemma setPath__Scheme (x : url.URL) (p : string) :
  url.Scheme (url.setPath_ x p) = url.Scheme x.
Proof.
  unfold url.setPath_, url.setPath.
  destruct (url.unescape p url.encodePath); [|reflexivity].
  now destruct (p =? url.escape a url.encodePath).
Qed.

(** A reference without a scheme takes the scheme of the base. *)
Lemma ResolveReference_Scheme (base u : url.URL) :
  url.Scheme u = EmptyString ->
  url.Scheme (url.ResolveReference base u) = url.Scheme base.
Proof.
  intros Hs. unfold url.ResolveReference. rewrite Hs. cbn [String.eqb].
  repeat match goal with
         | |- context [if ?b then _ else _] => destruct b
         end;
    rewrite ?setPath__Scheme; reflexivity.
Qed.

(** ** The route loop *)

Section Routes.
Context `{UnicodeTables} `{Environment}.

Lemma routePage_eq (cfg : Config) (p to : string) :
  routePage cfg p to
  = (cleanRoutePath p, to, applyFallbacks cfg to (fst (fetchOG to))).
Proof. unfold routePage. now destruct (fetchOG to). Qed.

(** The resolver gives a non-empty image for a non-empty one, when the
    target of the route does not parse as a URL without a scheme. *)
Lemma resolve_nonempty (raw to : string) :
  raw <> EmptyString ->
  (forall b, url.Parse to = Ok b -> url.Scheme b <> EmptyString) ->
  resolve raw to <> EmptyString.
Proof.
  intros Hr Hto. unfold resolve, absolutize.
  apply String.eqb_neq in Hr. rewrite Hr. apply String.eqb_neq in Hr.
  destruct (url.Parse raw) as [u|e]; [|exact Hr].
  unfold url.IsAbs, url.nonEmpty.
  destruct (String.eqb_spec (url.Scheme u) EmptyString) as [Es|Es]; cbn [negb].
  - destruct (url.Parse to) as [b|e]; [|exact Hr].
    specialize (Hto b eq_refl).
    destruct (String.eqb_spec (url.Host u) EmptyString) as [Eh|Eh];
      cbn [negb andb]; intros E; apply URL_String_empty in E as [E _].
    + rewrite (ResolveReference_Scheme _ _ Es) in E. contradiction.
    + cbn in E. contradiction.
  - intros E. apply URL_String_empty in E as [E _]. contradiction.
Qed.

(** C2, as amended.  After the defaulting step of a route the title and
    the description are not empty, nor is the canonical URL, which starts
    with the site origin; the target URL is the configured one; the
    logical path is not empty for a key other than ["/"]; the image is
    not empty when the extracted image is not empty or a global fallback
    image is configured, the target not being a URL without a scheme; and
    the image is empty when the extracted image is empty and no fallback
    is configured. *)
Theorem C2_render_input_after_defaulting :
  forall (cfg : Config) (p to routePath target : string) (og : OG),
    routePage cfg p to = (routePath, target, og) ->
    Title og <> EmptyString
    /\ Description og <> EmptyString
    /\ origin ++ routePath <> EmptyString
    /\ target = to
    /\ (p <> "/" -> routePath <> EmptyString)
    /\ (Image (fst (fetchOG to)) <> EmptyString \/ GlobalOG cfg <> EmptyString ->
        (forall b, url.Parse to = Ok b -> url.Scheme b <> EmptyString) ->
        Image og <> EmptyString)
    /\ (Image (fst (fetchOG to)) = EmptyString -> GlobalOG cfg = EmptyString ->
        Image og = EmptyString).
Proof.
  intros cfg p to routePath target og E.
  rewrite routePage_eq in E. injection E as <- <- <-.
  split.
  { rewrite applyFallbacks_Title.
    now destruct (String.eqb_spec (Title (fst (fetchOG to))) EmptyString). }
  split.
  { rewrite applyFallbacks_Description.
    now destruct (String.eqb_spec (Description (fst (fetchOG to))) EmptyString). }
  split; [discriminate|].
  split; [reflexivity|].
  split; [intros Hp E; apply cleanRoutePath_empty in E; contradiction|].
  split.
  - intros Himg Hto. rewrite applyFallbacks_Image.
    assert (Hf : fallbackImage cfg (fst (fetchOG to)) <> EmptyString).
    { unfold fallbackImage.
      destruct (String.eqb_spec (Image (fst (fetchOG to))) EmptyString) as [Ei|Ei],
        (String.eqb_spec (GlobalOG cfg) EmptyString) as [Eg|Eg];
        cbn [negb andb]; tauto. }
    destruct (String.eqb_spec (fallbackImage cfg (fst (fetchOG to))) EmptyString);
      [contradiction|].
    now apply resolve_nonempty.
  - intros Ei Eg. rewrite applyFallbacks_Image. unfold fallbackImage.
    now rewrite Ei, Eg.
Qed.

(** C4, as amended.  When the extracted image is empty and a global
    fallback image is configured, the image given to the renderer is the
    fallback passed through the resolver against the target of the route:
    what [absolutize] returns for it, and the fallback string itself only
    when [absolutize] returns an error. *)
Theorem C4_fallback_image_is_resolved :
  forall (cfg : Config) (p to : string),
    Image (fst (fetchOG to)) = EmptyString -> GlobalOG cfg <> EmptyString ->
    Image (snd (routePage cfg p to)) = resolve (GlobalOG cfg) to
    /\ Image (snd (routePage cfg p to))
       = match absolutize (GlobalOG cfg) to with
         | (abs, None) => abs
         | (_, Some _) => GlobalOG cfg
         end.
Proof.
  intros cfg p to Ei Eg.
  rewrite routePage_eq. cbn [snd]. rewrite applyFallbacks_Image.
  unfold fallbackImage. rewrite Ei. cbn [String.eqb andb].
  apply String.eqb_neq in Eg. rewrite Eg. cbn [negb]. rewrite Eg.
  split; reflexivity.
Qed.

End Routes.

(** C2 as stated fails: with no fallback image configured and nothing
    extracted, the image of the render input is empty. *)
Lemma C2_counterexample :
  @routePage asciiTables offline
     (Build_Config EmptyString EmptyString EmptyString
                   [("/shop", "https://example.com/")])
     "/shop" "https://example.com/"
  = ("/shop", "https://example.com/",
     mkOG "UniGoods" "UniGoods link" EmptyString).
Proof. vm_compute. reflexivity. Qed.

(** A witness of C2: a route whose page carries an image. *)
Lemma C2_witness :
  Title (mkOG "Shop" "UniGoods link" "https://cdn.example.com/og.png")
  <> EmptyString
  /\ Image (mkOG "Shop" "UniGoods link" "https://cdn.example.com/og.png")
     <> EmptyString.
Proof.
  pose proof (@C2_render_input_after_defaulting asciiTables
                (serving (documentWith
                            [metaTag [("property", "og:title");
                                      ("content", "Shop")];
                             metaTag [("property", "og:image");
                                      ("content", "//cdn.example.com/og.png")]]))
                (Build_Config EmptyString EmptyString EmptyString [])
                "shop/" "https://example.com/" "/shop" "https://example.com/"
                (mkOG "Shop" "UniGoods link" "https://cdn.example.com/og.png"))
    as Hw.
  destruct Hw as (Ht & _ & _ & _ & _ & Hi & _); [vm_compute; reflexivity|].
  split; [exact Ht|].
  apply Hi; [left; vm_compute; discriminate|].
  intros b Hb. vm_compute in Hb. injection Hb as <-. discriminate.
Defined.

(** C4 as stated fails: the fallback [/og.png] is resolved against the
    target of the route and is not used as it stands. *)
Lemma C4_counterexample :
  Image (snd (@routePage asciiTables offline
                (Build_Config EmptyString "/og.png" EmptyString
                              [("/shop", "https://example.com/a")])
                "/shop" "https://example.com/a"))
  = "https://example.com/og.png"
  /\ Image (snd (@routePage asciiTables offline
                   (Build_Config EmptyString "/og.png" EmptyString
                                 [("/shop", "https://example.com/a")])
                   "/shop" "https://example.com/a"))
     <> "/og.png".
Proof. split; vm_compute; [reflexivity|discriminate]. Qed.

(** A witness of C4: the same route. *)
Lemma C4_witness :
  Image (snd (@routePage asciiTables offline
                (Build_Config EmptyString "/og.png" EmptyString
                              [("/shop", "https://example.com/a")])
                "/shop" "https://example.com/a"))
  = @resolve asciiTables "/og.png" "https://example.com/a".
Proof.
  apply (@C4_fallback_image_is_resolved asciiTables offline
           (Build_Config EmptyString "/og.png" EmptyString
                         [("/shop", "https://example.com/a")])
           "/shop" "https://example.com/a");
    [reflexivity|discriminate].
Defined.

(** ** The run: route pages and the 404 page *)

Section NotFound.
Context `{UnicodeTables} `{Environment}.

(** Every configured route gets its page, rendered from the render
    input of the route. *)
Lemma main_writes_every_route (cfg : Config) (outDir p to : string) :
  In (p, to) (Routes cfg) ->
  In (WriteFile
        (filepath.Join
           (filepath.Join (filepath.Dir outDir)
              (strings.TrimPrefix (cleanRoutePath p) "/"))
           "index.html")
        (buildHTML (cleanRoutePath p) to
                   (applyFallbacks cfg to (fst (fetchOG to)))))
     (main cfg outDir).
Proof.
  intros Hr. unfold main. rewrite !in_app_iff, in_flat_map.
  right; left. exists (p, to). split; [exact Hr|].
  unfold routeEffects, routePage. destruct (fetchOG to) as [og e].
  simpl. auto.
Qed.

Lemma routeEffects_not_404 (cfg : Config) (outDir page : string)
      (route : string * string) :
  ~ In (WriteFile (filepath.Join (filepath.Dir outDir) "404.html") page)
       (routeEffects cfg outDir route).
Proof.
  unfold routeEffects. destruct route as [p to].
  destruct (routePage cfg p to) as [[routePath to'] og].
  simpl. intros [E|[E|[]]]; discriminate E.
Qed.

Lemma main_404 (cfg : Config) (outDir page : string) :
  In (WriteFile (filepath.Join (filepath.Dir outDir) "404.html") page)
     (main cfg outDir)
  <-> strings.TrimSpace (DefaultRedirect cfg) <> EmptyString
      /\ page = buildHTML "/404" (DefaultRedirect cfg) (notFoundOG cfg).
Proof.
  unfold main. rewrite !in_app_iff, in_flat_map. split.
  - intros [Hc|[(route & _ & Hr)|Hn]].
    + destruct (strings.TrimSpace (CNAME cfg) =? EmptyString);
        simpl in Hc; [contradiction|].
      destruct Hc as [E|[]]. discriminate E.
    + now apply routeEffects_not_404 in Hr.
    + destruct (String.eqb_spec (strings.TrimSpace (DefaultRedirect cfg))
                  EmptyString) as [E|E]; simpl in Hn; [contradiction|].
      destruct Hn as [E'|[]]. injection E' as <-. auto.
  - intros [Ht ->]. right; right.
    apply String.eqb_neq in Ht. rewrite Ht. simpl. auto.
Qed.

(** C9.  The run writes a file named [404.html] exactly when the
    configured default redirect is not empty once trimmed.  Its text is
    what the renderer gives for the logical path [/404], the default
    redirect as the target, the title [UniGoods], the fixed Korean
    description and the global fallback image: the escaped default
    redirect is the destination of the script, the [href] of the noscript
    link and the canonical [href]. *)
Theorem C9_not_found_page :
  forall (cfg : Config) (outDir : string),
    ((exists page,
         In (WriteFile (filepath.Join (filepath.Dir outDir) "404.html") page)
            (main cfg outDir))
     <-> strings.TrimSpace (DefaultRedirect cfg) <> EmptyString)
    /\ (forall page,
           In (WriteFile (filepath.Join (filepath.Dir outDir) "404.html") page)
              (main cfg outDir) ->
           page = buildHTML "/404" (DefaultRedirect cfg)
                    (mkOG "UniGoods" "유니굿즈 숍으로 이동합니다." (GlobalOG cfg))
           /\ page = pageShape "UniGoods" "유니굿즈 숍으로 이동합니다."
                       "UniGoods" "유니굿즈 숍으로 이동합니다."
                       (html.EscapeString (GlobalOG cfg))
                       "https://shop.unigoods.im/404"
                       (html.EscapeString (DefaultRedirect cfg))
                       (html.EscapeString (DefaultRedirect cfg))
                       (html.EscapeString (DefaultRedirect cfg))).
Proof.
  intros cfg outDir. split.
  - split.
    + intros [page Hp]. now apply main_404 in Hp.
    + intros Ht. eexists. apply main_404. split; [exact Ht|reflexivity].
  - intros page Hp. apply main_404 in Hp as [_ ->].
    split; [reflexivity|apply buildHTML_shape].
Qed.

End NotFound.

(** A witness of C9: a configuration with a default redirect and no
    route. *)
Lemma C9_witness :
  buildHTML "/404" "https://shop.example/?a=1&b=2"
    (mkOG "UniGoods" "유니굿즈 숍으로 이동합니다." "https://cdn.example/og.png")
  = pageShape "UniGoods" "유니굿즈 숍으로 이동합니다."
      "UniGoods" "유니굿즈 숍으로 이동합니다."
      "https://cdn.example/og.png" "https://shop.unigoods.im/404"
      "https://shop.example/?a=1&amp;b=2" "https://shop.example/?a=1&amp;b=2"
      "https://shop.example/?a=1&amp;b=2".
Proof.
  pose proof (@C9_not_found_page asciiTables offline
                (Build_Config EmptyString "https://cdn.example/og.png"
                              "https://shop.example/?a=1&b=2" [])
                "out") as [_ Hpage].
  destruct (Hpage (buildHTML "/404" "https://shop.example/?a=1&b=2"
                     (mkOG "UniGoods" "유니굿즈 숍으로 이동합니다."
                           "https://cdn.example/og.png")))
    as [_ Hshape]; [left; reflexivity|exact Hshape].
Defined.

(** ** Route keys: the slashes of the normalised path *)

Lemma HasPrefix_app (pre r : string) : strings.HasPrefix (pre ++ r) pre = true.
Proof. apply HasPrefix_iff. now exists r. Qed.

Lemma TrimPrefix_app (pre r : string) : strings.TrimPrefix (pre ++ r) pre = r.
Proof.
  unfold strings.TrimPrefix. rewrite HasPrefix_app.
  unfold len. rewrite slice_from_nat by (rewrite length_append; lia).
  rewrite length_append.
  replace (String.length pre + String.length r - String.length pre)
    with (String.length r) by lia.
  apply substring_app_right.
Qed.

Lemma TrimSuffix_keeps (s suffix : string) :
  strings.HasSuffix s suffix = false -> strings.TrimSuffix s suffix = s.
Proof. unfold strings.TrimSuffix. now intros ->. Qed.

Lemma TrimPrefix_keeps (s pre : string) :
  strings.HasPrefix s pre = false -> strings.TrimPrefix s pre = s.
Proof. unfold strings.TrimPrefix. now intros ->. Qed.

(** A string that ends with a slash is the slash or ends with it after
    its first byte. *)
Lemma HasSuffix_slash_cons (c : ascii) (x : string) :
  strings.HasSuffix (String c x) "/"
  = if x =? EmptyString then Ascii.eqb c "/" else strings.HasSuffix x "/".
Proof.
  destruct (String.eqb_spec x EmptyString) as [->|Hx].
  - destruct (Ascii.eqb_spec c "/") as [->|Hc]; [reflexivity|].
    destruct (strings.HasSuffix (String c EmptyString) "/") eqn:E; [|reflexivity].
    apply HasSuffix_iff in E as [r E]. destruct r as [|d [|e r]]; simpl in E;
      try discriminate; congruence.
  - destruct (strings.HasSuffix x "/") eqn:E.
    + apply HasSuffix_iff in E as [r ->]. apply HasSuffix_iff.
      now exists (String c r).
    + destruct (strings.HasSuffix (String c x) "/") eqn:E'; [|reflexivity].
      apply HasSuffix_iff in E' as [r Hr]. destruct r as [|d r]; simpl in Hr.
      * injection Hr as _ ->. now elim Hx.
      * injection Hr as _ ->. rewrite HasSuffix_app in E. discriminate E.
Qed.

Lemma HasPrefix_slash_cons (c : ascii) (x : string) :
  strings.HasPrefix (String c x) "/" = Ascii.eqb c "/".
Proof.
  destruct (Ascii.eqb_spec c "/") as [->|Hc].
  - apply (HasPrefix_app "/" x).
  - destruct (strings.HasPrefix (String c x) "/") eqn:E; [|reflexivity].
    apply HasPrefix_iff in E as [r E]. simpl in E. congruence.
Qed.

(** The key with its leading slash, as [cleanRoutePath] hands it to
    [TrimSuffix]. *)
Lemma cleanRoutePath_cons (c : ascii) (x : string) :
  cleanRoutePath (String c x)
  = strings.TrimSuffix
      (if Ascii.eqb c "/" then String c x else String "/" (String c x)) "/".
Proof.
  unfold cleanRoutePath. cbn [String.eqb].
  rewrite HasPrefix_slash_cons. now destruct (Ascii.eqb c "/").
Qed.

Lemma TrimSuffix_slash_cons (c : ascii) (x : string) :
  x <> EmptyString ->
  strings.TrimSuffix (String c x) "/" = String c (strings.TrimSuffix x "/").
Proof.
  intros Hx. destruct (strings.HasSuffix x "/") eqn:E.
  - apply HasSuffix_iff in E as [r ->].
    change (String c (r ++ "/")) with (String c r ++ "/").
    now rewrite !TrimSuffix_app.
  - rewrite !TrimSuffix_keeps; auto.
    rewrite HasSuffix_slash_cons. apply String.eqb_neq in Hx. now rewrite Hx.
Qed.

(** X1.  The normalised path begins with a slash for every key but ["/"],
    and it ends with a slash exactly for the empty key (the root ["/"]) and
    for the keys that end with two slashes: [TrimSuffix] removes one slash
    only. *)
Theorem cleanRoutePath_slashes :
  forall p : string,
    (strings.HasPrefix (cleanRoutePath p) "/" = true <-> p <> "/")
    /\ (strings.HasSuffix (cleanRoutePath p) "/" = true
        <-> p = EmptyString \/ strings.HasSuffix p "//" = true).
Proof.
  intros p. split.
  - split.
    + intros Hpre ->. discriminate Hpre.
    + intros Hp. destruct p as [|c x]; [reflexivity|].
      rewrite cleanRoutePath_cons.
      destruct (Ascii.eqb_spec c "/") as [->|Hc].
      * destruct x as [|d x]; [now elim Hp|].
        rewrite TrimSuffix_slash_cons by discriminate.
        apply HasPrefix_slash_cons.
      * rewrite TrimSuffix_slash_cons by discriminate.
        apply HasPrefix_slash_cons.
  - destruct p as [|c x].
    { split; [now left|reflexivity]. }
    rewrite cleanRoutePath_cons.
    assert (Hq : forall q, q <> EmptyString ->
                   (strings.HasSuffix (strings.TrimSuffix q "/") "/" = true
                    <-> strings.HasSuffix q "//" = true)).
    { intros q Hq. split.
      - intros Hs. destruct (strings.HasSuffix q "/") eqn:E.
        + apply HasSuffix_true in E. apply HasSuffix_iff in Hs as [r Hr].
          rewrite Hr, append_assoc in E. apply HasSuffix_iff. now exists r.
        + rewrite TrimSuffix_keeps in Hs by exact E. congruence.
      - intros Hs. apply HasSuffix_iff in Hs as [r ->].
        change "//" with ("/" ++ "/"). rewrite <- append_assoc, TrimSuffix_app.
        apply HasSuffix_app. }
    destruct (Ascii.eqb_spec c "/") as [->|Hc].
    + rewrite Hq by discriminate. split; [now right|].
      intros [E|E]; [discriminate E|exact E].
    + rewrite Hq by discriminate. split.
      * intros Hs. right. apply HasSuffix_iff in Hs as [r Hr].
        destruct r as [|d r]; simpl in Hr; [congruence|].
        injection Hr as _ ->. apply HasSuffix_app.
      * intros [E|E]; [discriminate E|].
        apply HasSuffix_iff in E as [r ->]. apply HasSuffix_iff.
        now exists (String "/" r).
Qed.

(** X2.  The keys [cleanRoutePath] leaves as they are are those that
    begin with a slash and do not end with one. *)
Theorem cleanRoutePath_fixed_points :
  forall p : string,
    cleanRoutePath p = p
    <-> strings.HasPrefix p "/" = true /\ strings.HasSuffix p "/" = false.
Proof.
  intros p. destruct p as [|c x].
  { split; [discriminate|intros [E _]; discriminate E]. }
  rewrite cleanRoutePath_cons, HasPrefix_slash_cons.
  destruct (Ascii.eqb_spec c "/") as [->|Hc].
  - split.
    + intros E. split; [reflexivity|].
      destruct (strings.HasSuffix (String "/" x) "/") eqn:Hs; [|reflexivity].
      apply HasSuffix_true in Hs. rewrite E in Hs.
      apply (f_equal String.length) in Hs. rewrite length_append in Hs.
      simpl in Hs. lia.
    + intros [_ Hs]. now apply TrimSuffix_keeps.
  - split; [|intros [E _]; discriminate E].
    rewrite TrimSuffix_slash_cons by discriminate. congruence.
Qed.

Lemma TrimPrefix_slash_cons (x : string) :
  strings.TrimPrefix (String "/" x) "/" = x.
Proof. exact (TrimPrefix_app "/" x). Qed.

Section Directory.
Context `{UnicodeTables} `{Environment}.

Lemma route_directory (p : string) :
  strings.TrimPrefix (cleanRoutePath p) "/"
  = strings.TrimSuffix (strings.TrimPrefix p "/") "/".
Proof.
  destruct p as [|c x]; [reflexivity|].
  rewrite cleanRoutePath_cons.
  destruct (Ascii.eqb_spec c "/") as [->|Hc].
  - rewrite (TrimPrefix_slash_cons x).
    destruct x as [|d x]; [reflexivity|].
    rewrite TrimSuffix_slash_cons by discriminate.
    apply TrimPrefix_slash_cons.
  - rewrite TrimSuffix_slash_cons by discriminate.
    rewrite TrimPrefix_slash_cons.
    rewrite (TrimPrefix_keeps (String c x)); [reflexivity|].
    rewrite HasPrefix_slash_cons. now apply Ascii.eqb_neq.
Qed.

(** X3.  The directory of a route is its key less one leading and one
    trailing slash: the run makes that directory under the output
    directory and writes the page of the route to [index.html] in it.  The
    keys [a], [/a], [a/] and [/a/] therefore share one directory, and so do
    the empty key and the key ["/"], whose page is written to the output
    directory itself; the key [/s/] has the directory [s]. *)
Theorem route_directory_of_key :
  forall (cfg : Config) (outDir p to : string),
    let dir :=
      filepath.Join (filepath.Dir outDir)
        (strings.TrimSuffix (strings.TrimPrefix p "/") "/") in
    routeEffects cfg outDir (p, to)
    = [MkdirAll dir;
       WriteFile (filepath.Join dir "index.html")
         (buildHTML (cleanRoutePath p) to
            (applyFallbacks cfg to (fst (fetchOG to))))]
    /\ strings.TrimSuffix (strings.TrimPrefix ("/" ++ p ++ "/") "/") "/" = p.
Proof.
  intros cfg outDir p to dir. subst dir. split.
  - unfold routeEffects. rewrite routePage_eq, route_directory. reflexivity.
  - rewrite (TrimPrefix_app "/"). apply TrimSuffix_app.
Qed.

End Directory.

(** ** The renderer: what the page keeps of its inputs *)

Lemma append_inv_head (l x y : string) : l ++ x = l ++ y -> x = y.
Proof.
  induction l as [|c l IH]; simpl; [auto|]. intros E. injection E as E. auto.
Qed.

Lemma escapeByte_length (c : ascii) :
  String.length (html.escapeByte c) = (if special c then 4 else 1)
  \/ String.length (html.escapeByte c) = (if special c then 5 else 1).
Proof.
  destruct (escapeByte_cases c)
    as [[-> ->]|[[-> ->]|[[-> ->]|[[-> ->]|[[-> ->]|[Hc ->]]]]]];
    rewrite ?Hc; simpl; auto.
Qed.

Lemma EscapeString_length (s : string) :
  String.length s <= String.length (html.EscapeString s)
  /\ (String.length (html.EscapeString s) = String.length s ->
      noSpecial s = true).
Proof.
  induction s as [|c s [IH1 IH2]]; [split; auto|].
  cbn [html.EscapeString noSpecial all_bytes]. rewrite length_append.
  cbn [String.length]. fold (noSpecial s).
  destruct (escapeByte_length c) as [E|E]; rewrite E;
    destruct (special c); cbn [negb andb]; split; try lia; intros; apply IH2; lia.
Qed.

Lemma EscapeString_noSpecial (s : string) :
  noSpecial s = true -> html.EscapeString s = s.
Proof.
  unfold noSpecial. induction s as [|c s IH]; [reflexivity|].
  cbn [all_bytes html.EscapeString]. intros Hs.
  apply Bool.andb_true_iff in Hs as [Hc Hs].
  apply Bool.negb_true_iff in Hc.
  rewrite (escapeByte_plain _ Hc), (IH Hs). reflexivity.
Qed.

Lemma EscapeString_inj (a b : string) :
  html.EscapeString a = html.EscapeString b -> a = b.
Proof.
  intros E. apply (f_equal decodeEntities) in E.
  now rewrite !EscapeString_decode in E.
Qed.

(** Two values that avoid the byte a delimiter starts with are cut off
    the text at the same place. *)
Lemma hole_inj (c : ascii) (l r r' : string) :
  forall x y,
    avoids c x = true -> avoids c y = true ->
    x ++ String c l ++ r = y ++ String c l ++ r' -> x = y /\ r = r'.
Proof.
  unfold avoids. induction x as [|a x IH]; intros [|b y] Hx Hy E.
  - split; [reflexivity|]. now apply (append_inv_head (String c l)).
  - exfalso. simpl in E, Hy. injection E as <- _.
    rewrite Ascii.eqb_refl in Hy. discriminate Hy.
  - exfalso. simpl in E, Hx. injection E as -> _.
    rewrite Ascii.eqb_refl in Hx. discriminate Hx.
  - simpl in E, Hx, Hy. injection E as <- E.
    apply Bool.andb_true_iff in Hx as [_ Hx].
    apply Bool.andb_true_iff in Hy as [_ Hy].
    destruct (IH y Hx Hy E) as [-> ->]. auto.
Qed.

Lemma EscapeString_markupFree (s : string) : markupFree (html.EscapeString s).
Proof.
  split; apply EscapeString_avoids; solve [reflexivity|discriminate].
Qed.

(** Cancelling the text two documents begin with. *)
Ltac peel H :=
  repeat (apply append_inv_head in H).

Lemma pageShape_inj (a1 a2 a3 a4 a5 a6 a7 a8 a9
                     b1 b2 b3 b4 b5 b6 b7 b8 b9 : string) :
  Forall markupFree [a1; a2; a3; a4; a5; a6; a7; a8; a9;
                     b1; b2; b3; b4; b5; b6; b7; b8; b9] ->
  pageShape a1 a2 a3 a4 a5 a6 a7 a8 a9 = pageShape b1 b2 b3 b4 b5 b6 b7 b8 b9 ->
  [a1; a2; a3; a4; a5; a6; a7; a8; a9] = [b1; b2; b3; b4; b5; b6; b7; b8; b9].
Proof.
  intros Hf E.
  repeat match goal with
         | H : Forall _ (_ :: _) |- _ => inversion H; subst; clear H
         | H : markupFree _ |- _ => destruct H
         end.
  unfold pageShape, dq in E.
  peel E. apply (hole_inj "<") in E as [-> E]; [|assumption..].
  do 8 (peel E; apply (hole_inj "034") in E as [-> E]; [|assumption..]).
  reflexivity.
Qed.

(** X4.  The page determines the render input: two calls of the renderer
    give the same page only for the same logical path, the same target and
    the same title, description and image. *)
Theorem buildHTML_injective :
  forall (path path' to to' : string) (og og' : OG),
    buildHTML path to og = buildHTML path' to' og' ->
    path = path' /\ to = to' /\ og = og'.
Proof.
  intros path path' to to' og og' E.
  rewrite !buildHTML_shape in E. apply pageShape_inj in E.
  - injection E as Et Ed _ _ Ei Ep Eto _ _.
    apply EscapeString_inj in Et, Ed, Ei, Ep, Eto.
    try apply append_inv_head in Ep.
    destruct og, og'; simpl in *. subst. auto.
  - repeat constructor; apply EscapeString_markupFree.
Qed.

Lemma buildHTML_injective_witness :
  "/a" = "/a" /\ "https://example.com/?x=1&y=2" = "https://example.com/?x=1&y=2"
  /\ mkOG "T" "D" "I" = mkOG "T" "D" "I".
Proof.
  apply (buildHTML_injective "/a" "/a" "https://example.com/?x=1&y=2"
           "https://example.com/?x=1&y=2" (mkOG "T" "D" "I") (mkOG "T" "D" "I")).
  reflexivity.
Defined.

(** X5.  The redirect script, the canonical link and the noscript link
    carry the target as it is configured exactly when the target holds
    none of the five special bytes; a target with one of them, an
    ampersand between two query parameters for instance, stands at the
    three sites, the script string literal included, with the byte
    written as an entity. *)
Theorem buildHTML_target_verbatim :
  forall (path to : string) (og : OG),
    (buildHTML path to og
     = pageShape (html.EscapeString (Title og))
                 (html.EscapeString (Description og))
                 (html.EscapeString (Title og))
                 (html.EscapeString (Description og))
                 (html.EscapeString (Image og))
                 (html.EscapeString (origin ++ path))
                 to to to
     <-> noSpecial to = true)
    /\ (html.EscapeString to = to <-> noSpecial to = true)
    /\ buildHTML "/a" "https://example.com/?x=1&y=2" og
       = pageShape (html.EscapeString (Title og))
                   (html.EscapeString (Description og))
                   (html.EscapeString (Title og))
                   (html.EscapeString (Description og))
                   (html.EscapeString (Image og))
                   "https://shop.unigoods.im/a"
                   "https://example.com/?x=1&amp;y=2"
                   "https://example.com/?x=1&amp;y=2"
                   "https://example.com/?x=1&amp;y=2".
Proof.
  intros path to og.
  assert (Hid : html.EscapeString to = to <-> noSpecial to = true).
  { split; [|apply EscapeString_noSpecial].
    intros E. apply EscapeString_length. now rewrite E. }
  split; [|split; [exact Hid|apply buildHTML_shape]].
  rewrite buildHTML_shape. split.
  - intros E. apply EscapeString_length.
    unfold pageShape in E. peel E.
    apply (f_equal String.length) in E.
    repeat (rewrite length_append in E; cbn [String.length nl dq] in E).
    lia.
  - intros Hs. now rewrite (EscapeString_noSpecial _ Hs).
Qed.

(** X6.  Every [<], [>], double quote and apostrophe of the page belongs
    to the template: their numbers do not depend on the title, the
    description, the image, the path or the target, so that no value can
    close the attribute or the element it stands in.  The closing tags
    of the script and of the title occur once each. *)
Theorem buildHTML_markup_is_fixed :
  forall (path to : string) (og : OG),
    occurrences "<" (buildHTML path to og) = 28
    /\ occurrences ">" (buildHTML path to og) = 28
    /\ occurrences dq (buildHTML path to og) = 48
    /\ occurrences "'" (buildHTML path to og) = 0
    /\ occurrences "</script" (buildHTML path to og) = 1
    /\ occurrences "</title" (buildHTML path to og) = 1.
Proof.
  intros path to og. unfold buildHTML, dq.
  repeat split;
    (apply tpl_occurrences;
     [intros; vm_compute; split; reflexivity
     |repeat constructor; apply EscapeString_avoids;
      solve [reflexivity | discriminate]]).
Qed.

(** ** Extraction: what a field stores *)

Section Content.
Context `{UnicodeTables}.

(** X7.  The value a recognised [meta] element stores in its field is the
    value of its [content] attribute less the white space at its two ends:
    the attribute value is a run of white space, the stored value, and a
    run of white space, and the stored value neither begins nor ends with
    white space.  Nothing inside the value is changed. *)
Theorem content_is_value_between_spaces :
  forall (n : xhtml.Node) (og : OG) (v : string),
    lastAttr "content" (xhtml.Attr n) = Some v ->
    In (metaKey n) recognised ->
    exists a b,
      blank a /\ blank b
      /\ v = a ++ fieldOf (metaKey n) (visitMeta n og) ++ b
      /\ trimmed (fieldOf (metaKey n) (visitMeta n og)).
Proof.
  intros n og v Hv Hk.
  assert (E : fieldOf (metaKey n) (visitMeta n og) = strings.TrimSpace v).
  { rewrite visitMeta_spec. unfold metaContent. rewrite Hv.
    simpl in Hk. repeat destruct Hk as [<-|Hk]; try contradiction; reflexivity. }
  rewrite E. destruct (TrimSpace_between v) as (a & b & Ha & Hb & Ev).
  exists a, b. split; [exact Ha|]. split; [exact Hb|].
  split; [exact Ev|apply TrimSpace_trimmed].
Qed.

End Content.

Lemma content_is_value_between_spaces_witness :
  exists a b,
    blank a /\ blank b
    /\ String "009" (" Shop  now " ++ String "194" (String "160" EmptyString))
       = a ++ "Shop  now" ++ b
    /\ trimmed "Shop  now".
Proof.
  apply (@content_is_value_between_spaces asciiTables
           (metaTag [("property", "og:title");
                     ("content",
                      String "009" (" Shop  now "
                                    ++ String "194" (String "160" EmptyString)))])
           emptyOG
           (String "009" (" Shop  now "
                          ++ String "194" (String "160" EmptyString))));
    [reflexivity|simpl; auto].
Defined.

(** ** The test for a [meta] element *)

Lemma in_all_ascii (c : ascii) : In c all_ascii.
Proof.
  unfold all_ascii. rewrite <- (ascii_nat_embedding c).
  apply in_map, in_seq. pose proof (nat_ascii_bounded c). lia.
Qed.

Lemma sameFold_lower (sr tr : ascii) :
  byte_in 0 127 sr = true -> byte_in 0 127 tr = true ->
  sameFold sr tr = Ascii.eqb (strings.lowerByte sr) (strings.lowerByte tr).
Proof.
  intros Hs Ht.
  assert (Hall :
    forallb (fun sr =>
      forallb (fun tr =>
        implb (byte_in 0 127 sr && byte_in 0 127 tr)
              (Bool.eqb (sameFold sr tr)
                 (Ascii.eqb (strings.lowerByte sr) (strings.lowerByte tr))))
        all_ascii) all_ascii = true) by (vm_compute; reflexivity).
  rewrite forallb_forall in Hall. specialize (Hall sr (in_all_ascii sr)).
  rewrite forallb_forall in Hall. specialize (Hall tr (in_all_ascii tr)).
  rewrite Hs, Ht in Hall. now apply Bool.eqb_prop.
Qed.

Section Fold.
Context `{UnicodeTables}.

Lemma EqualFold_cons (sr tr : ascii) (s t : string) :
  strings.EqualFold (String sr s) (String tr t)
  = if negb (byte_in 0 127 sr && byte_in 0 127 tr)
    then foldTails (String sr s) (String tr t)
    else if sameFold sr tr then strings.EqualFold s t else false.
Proof.
  cbn [strings.EqualFold]. unfold sameFold.
  destruct (negb (byte_in 0 127 sr && byte_in 0 127 tr)); [reflexivity|].
  destruct (Ascii.eqb tr sr); [reflexivity|]. cbn [orb].
  destruct (N_of_ascii tr <? N_of_ascii sr)%N; reflexivity.
Qed.

(** On ASCII strings [EqualFold] compares the lower-cased strings. *)
Lemma EqualFold_ascii (s : string) :
  forall t, strings.isASCII s = true -> strings.isASCII t = true ->
            strings.EqualFold s t
            = (map_bytes strings.lowerByte s =? map_bytes strings.lowerByte t).
Proof.
  unfold strings.isASCII.
  induction s as [|sr s IH]; intros [|tr t] Hs Ht; try reflexivity.
  cbn [all_bytes] in Hs, Ht.
  apply Bool.andb_true_iff in Hs as [Hsr Hs].
  apply Bool.andb_true_iff in Ht as [Htr Ht].
  rewrite EqualFold_cons, Hsr, Htr. cbn [andb negb map_bytes String.eqb].
  rewrite (sameFold_lower _ _ Hsr Htr), (IH t Hs Ht).
  now destruct (Ascii.eqb (strings.lowerByte sr) (strings.lowerByte tr)).
Qed.

(** X8.  The walk takes a node for a [meta] element when it is an element
    whose tag name, in lower case, is [meta]: the test does not depend on
    the case of the letters.  (For a tag name in ASCII; beyond it the
    comparison rests on the Unicode tables.) *)
Theorem isMeta_any_letter_case :
  forall n : xhtml.Node,
    strings.isASCII (xhtml.Data n) = true ->
    isMeta n
    = xhtml.NodeType_eqb (xhtml.Type_ n) xhtml.ElementNode
      && (strings.ToLower (xhtml.Data n) =? "meta").
Proof.
  intros n Hn. unfold isMeta, strings.ToLower.
  rewrite Hn, EqualFold_ascii by (exact Hn || reflexivity). reflexivity.
Qed.

End Fold.

Lemma isMeta_any_letter_case_witness :
  @isMeta asciiTables (xhtml.mkNode xhtml.ElementNode "MeTa" [] []) = true.
Proof.
  exact (@isMeta_any_letter_case asciiTables
           (xhtml.mkNode xhtml.ElementNode "MeTa" [] []) eq_refl).
Defined.

(** ** The bytes of the response that reach the parser *)

Lemma limit_prefix (s : string) :
  forall n, exists r,
    s = limit n s ++ r
    /\ (N.of_nat (String.length (limit n s)) <= n)%N
    /\ (r = EmptyString \/ N.of_nat (String.length (limit n s)) = n).
Proof.
  induction s as [|c s IH]; intros n.
  - exists EmptyString. simpl. repeat split; [lia|now left].
  - cbn [limit]. destruct (N.eqb_spec n 0) as [->|Hn].
    + exists (String c s). simpl. repeat split; [lia|now right].
    + destruct (IH (N.pred n)) as (r & E & Hl & Hr). exists r.
      cbn [append String.length]. rewrite <- E. repeat split; [lia|].
      destruct Hr as [->|Hr]; [now left|right; lia].
Qed.

Section Fetch.
Context `{UnicodeTables} `{Environment}.

(** X9.  Of the body of the response [fetchOG] hands the parser a prefix
    of at most 2 MiB (2097152 bytes): the whole body when it is not
    longer, and its first 2097152 bytes otherwise.  What follows them has
    no part in the result. *)
Theorem fetchOG_reads_at_most_2MiB :
  forall target body : string,
    httpGet target = Ok body ->
    exists head rest,
      body = head ++ rest
      /\ (N.of_nat (String.length head) <= 2097152)%N
      /\ (rest = EmptyString \/ N.of_nat (String.length head) = 2097152%N)
      /\ fetchOG target = (parseOGHTML head target, None).
Proof.
  intros target body Hget.
  destruct (limit_prefix body 2097152) as (r & E & Hl & Hr).
  exists (limit 2097152 body), r. unfold fetchOG. rewrite Hget. auto.
Qed.

End Fetch.

Lemma fetchOG_reads_at_most_2MiB_witness :
  exists head rest,
    "<html></html>" = head ++ rest
    /\ (N.of_nat (String.length head) <= 2097152)%N
    /\ (rest = EmptyString \/ N.of_nat (String.length head) = 2097152%N)
    /\ @fetchOG asciiTables
         {| htmlParse := fun _ => Ok (documentWith []);
            httpGet := fun _ => Ok "<html></html>" |}
         "https://example.com/"
       = (@parseOGHTML asciiTables
            {| htmlParse := fun _ => Ok (documentWith []);
               httpGet := fun _ => Ok "<html></html>" |}
            head "https://example.com/", None).
Proof.
  apply (@fetchOG_reads_at_most_2MiB asciiTables
           {| htmlParse := fun _ => Ok (documentWith []);
              httpGet := fun _ => Ok "<html></html>" |}
           "https://example.com/" "<html></html>").
  reflexivity.
Defined.

(** ** The resolver: the scheme of the result *)

Lemma starts_app (p a b : string) :
  (exists r, a = p ++ r) -> exists r, a ++ b = p ++ r.
Proof. intros [r ->]. exists (r ++ b). apply append_assoc. Qed.

Lemma starts_refl (p : string) : exists r, p = p ++ r.
Proof. exists EmptyString. symmetry. apply append_nil_r. Qed.

(** The text of a URL that has a scheme begins with the scheme and a
    colon. *)
Lemma URL_String_scheme (u : url.URL) :
  url.Scheme u <> EmptyString ->
  exists rest, url.URL_String u = (url.Scheme u ++ ":") ++ rest.
Proof.
  intros Hs. unfold url.URL_String. rewrite (nonEmpty_true _ Hs).
  cbv zeta. cbn [orb].
  repeat match goal with
         | |- context [if ?b then _ else _] => destruct b
         | |- context [match ?o with Some _ => _ | None => _ end] => destruct o
         end;
    repeat first [apply starts_refl | apply starts_app].
Qed.

Section Scheme.
Context `{UnicodeTables}.

(** X10.  Against a target that has a scheme, a reference that parses
    comes back as a URL with a scheme: its own when it has one, and the
    scheme of the target otherwise, whether the reference names a host, an
    absolute path or a relative one. *)
Theorem absolutize_gives_a_scheme :
  forall (raw baseStr : string) (u base : url.URL),
    raw <> EmptyString ->
    url.Parse raw = Ok u -> url.Parse baseStr = Ok base ->
    url.Scheme base <> EmptyString ->
    exists rest,
      absolutize raw baseStr
      = (((if url.Scheme u =? EmptyString then url.Scheme base
           else url.Scheme u) ++ ":") ++ rest, None).
Proof.
  intros raw baseStr u base Hr Hu Hb Hs.
  destruct (String.eqb_spec (url.Scheme u) EmptyString) as [Eu|Eu].
  - destruct (String.eqb_spec (url.Host u) EmptyString) as [Eh|Eh].
    + rewrite (absolutize_relative _ _ _ _ Hr Hu Eu Eh Hb).
      destruct (URL_String_scheme (url.ResolveReference base u)) as [rest E].
      * now rewrite ResolveReference_Scheme.
      * rewrite ResolveReference_Scheme in E by exact Eu.
        exists rest. now rewrite E.
    + rewrite (absolutize_protocol_relative _ _ _ _ Hu Eu Eh Hb).
      destruct (URL_String_scheme (url.setScheme (url.Scheme base) u))
        as [rest E]; [exact Hs|].
      exists rest. now rewrite E.
  - rewrite (absolutize_absolute _ _ _ Hu Eu).
    destruct (URL_String_scheme u Eu) as [rest E].
    exists rest. now rewrite E.
Qed.

End Scheme.

Lemma absolutize_gives_a_scheme_witness :
  exists rest,
    @absolutize asciiTables "img/a.png" "https://example.com/shop/"
    = (("https" ++ ":") ++ rest, None).
Proof.
  apply (@absolutize_gives_a_scheme asciiTables "img/a.png"
           "https://example.com/shop/"
           (url.setPathFields "img/a.png" EmptyString url.emptyURL)
           (url.setPathFields "/shop/" EmptyString
              (url.setHost "example.com"
                 (url.setScheme "https" url.emptyURL))));
    solve [discriminate | vm_compute; reflexivity].
Defined.

(** ** The resolver: a path reference stays on the site of the target *)

Lemma URL_String_site (u : url.URL) :
  url.Scheme u <> EmptyString -> url.Opaque u = EmptyString ->
  url.Host u <> EmptyString ->
  exists rest, url.URL_String u = siteOf u ++ rest.
Proof.
  intros Hs Ho Hh. unfold url.URL_String, siteOf.
  rewrite (nonEmpty_true _ Hs), (nonEmpty_true _ Hh), (nonEmpty_false _ Ho).
  apply String.eqb_neq in Hh. rewrite Hh.
  cbv zeta. cbn [orb andb]. rewrite Bool.andb_false_r. cbn [andb].
  destruct (url.User u) as [ui|]; cbn [url.isSome].
  - replace ((url.Scheme u ++ ":") ++ "//" ++ (url.Userinfo_String ui ++ "@")
             ++ url.escape (url.Host u) url.encodeHost)
      with ((((url.Scheme u ++ ":") ++ "//") ++ url.Userinfo_String ui ++ "@")
            ++ url.escape (url.Host u) url.encodeHost)
      by now rewrite !append_assoc.
    repeat match goal with
           | |- context [if ?b then _ else _] => destruct b
           end;
      repeat first [apply starts_refl | apply starts_app].
  - replace ((url.Scheme u ++ ":") ++ "//" ++ EmptyString
             ++ url.escape (url.Host u) url.encodeHost)
      with (((url.Scheme u ++ ":") ++ "//")
            ++ url.escape (url.Host u) url.encodeHost)
      by now rewrite !append_assoc.
    repeat match goal with
           | |- context [if ?b then _ else _] => destruct b
           end;
      repeat first [apply starts_refl | apply starts_app].
Qed.

Lemma setPath_fields (x x' : url.URL) (p : string) :
  url.setPath x p = Ok x' ->
  url.Scheme x' = url.Scheme x /\ url.Opaque x' = url.Opaque x
  /\ url.User x' = url.User x /\ url.Host x' = url.Host x.
Proof.
  unfold url.setPath. destruct (url.unescape p url.encodePath); [|discriminate].
  destruct (p =? url.escape a url.encodePath); intros [= <-]; auto.
Qed.

Lemma setPath__fields (x : url.URL) (p : string) :
  url.Scheme (url.setPath_ x p) = url.Scheme x
  /\ url.Opaque (url.setPath_ x p) = url.Opaque x
  /\ url.User (url.setPath_ x p) = url.User x
  /\ url.Host (url.setPath_ x p) = url.Host x.
Proof.
  unfold url.setPath_. destruct (url.setPath x p) as [x'|e] eqn:E; [|auto].
  now apply setPath_fields in E.
Qed.

Lemma setFragment_fields (x x' : url.URL) (f : string) :
  url.setFragment x f = Ok x' ->
  url.Scheme x' = url.Scheme x /\ url.Opaque x' = url.Opaque x
  /\ url.User x' = url.User x /\ url.Host x' = url.Host x.
Proof.
  unfold url.setFragment.
  destruct (url.unescape f url.encodeFragment); [|discriminate].
  destruct (f =? url.escape a url.encodeFragment); intros [= <-]; auto.
Qed.

Section Site.
Context `{UnicodeTables}.

(** [Parse] fills [Opaque] for a URL that has a scheme and no slash after
    it, and for no other: such a URL has neither host nor user. *)
Lemma parse_opaque (rawURL : string) (viaRequest : bool) (u : url.URL) :
  url.parse rawURL viaRequest = Ok u -> url.Opaque u <> EmptyString ->
  url.Scheme u <> EmptyString /\ url.Host u = EmptyString.
Proof.
  unfold url.parse.
  destruct (url.stringContainsCTLByte rawURL); [discriminate|].
  destruct ((rawURL =? EmptyString) && viaRequest); [discriminate|].
  destruct (rawURL =? "*"); [intros [= <-] Ho; now elim Ho|].
  destruct (url.getScheme rawURL) as [[scheme rest] [e|]]; [discriminate|].
  set (url0 := url.setScheme (strings.ToLower scheme) url.emptyURL).
  destruct (if strings.HasSuffix rest "?" && (strings.CountByte rest "?" =? 1)%Z
            then (slice_to rest (len rest - 1), url.setQuery true EmptyString url0)
            else let '(r, q, _) := strings.Cut rest "?" in
                 (r, url.setRawQuery q url0)) as [rest' url1] eqn:E.
  assert (F : url.Scheme url1 = url.Scheme url0
              /\ url.Opaque url1 = EmptyString /\ url.Host url1 = EmptyString
              /\ url.User url1 = None).
  { destruct (strings.HasSuffix rest "?" && (strings.CountByte rest "?" =? 1)%Z).
    - injection E as _ <-. auto.
    - destruct (strings.Cut rest "?") as [[r q] b]. injection E as _ <-. auto. }
  destruct F as (Fs & Fo & Fh & Fu).
  destruct (negb (strings.HasPrefix rest' "/")); cbn [andb].
  - destruct (url.nonEmpty (url.Scheme url1)) eqn:En.
    + intros [= <-] _. cbn [url.Scheme url.Host url.setOpaque].
      split; [|exact Fh]. unfold url.nonEmpty in En.
      intros E0. rewrite E0 in En. discriminate En.
    + destruct viaRequest; [discriminate|].
      destruct (strings.Contains (fst (fst (strings.Cut rest' "/"))) ":");
        [discriminate|].
      cbn [orb negb andb].
      destruct (negb (strings.HasPrefix rest' "///") && strings.HasPrefix rest' "//").
      * destruct (if (0 <=? strings.Index (slice_from rest' 2) "/")%Z
                  then _ else _) as [authority rest''].
        destruct (url.parseAuthority authority) as [[user host]|e]; [|discriminate].
        intros Hp Ho. apply setPath_fields in Hp as (_ & Hp & _).
        rewrite Hp in Ho. cbn in Ho. now elim Ho.
      * intros Hp Ho. apply setPath_fields in Hp as (_ & Hp & _).
        rewrite Hp, Fo in Ho. now elim Ho.
  - destruct ((url.nonEmpty (url.Scheme url1)
               || negb viaRequest && negb (strings.HasPrefix rest' "///"))
              && strings.HasPrefix rest' "//").
    + destruct (if (0 <=? strings.Index (slice_from rest' 2) "/")%Z
                then _ else _) as [authority rest''].
      destruct (url.parseAuthority authority) as [[user host]|e]; [|discriminate].
      intros Hp Ho. apply setPath_fields in Hp as (_ & Hp & _).
      rewrite Hp in Ho. cbn in Ho. now elim Ho.
    + destruct (url.nonEmpty (url.Scheme url1) && strings.HasPrefix rest' "/").
      * intros Hp Ho. apply setPath_fields in Hp as (_ & Hp & _).
        rewrite Hp in Ho. cbn in Ho. rewrite Fo in Ho. now elim Ho.
      * intros Hp Ho. apply setPath_fields in Hp as (_ & Hp & _).
        rewrite Hp, Fo in Ho. now elim Ho.
Qed.

Lemma Parse_opaque (raw : string) (u : url.URL) :
  url.Parse raw = Ok u -> url.Opaque u <> EmptyString ->
  url.Scheme u <> EmptyString /\ url.Host u = EmptyString.
Proof.
  unfold url.Parse. destruct (strings.Cut raw "#") as [[u0 frag] b].
  destruct (url.parse u0 false) as [x|e] eqn:E; [|discriminate].
  destruct (frag =? EmptyString).
  - intros [= <-]. now apply parse_opaque with (1 := E).
  - intros Hf Ho. apply setFragment_fields in Hf as (Hs & Hq & _ & Hh).
    rewrite Hs, Hh. rewrite Hq in Ho. now apply parse_opaque with (1 := E).
Qed.

End Site.

Section SiteClaim.
Context `{UnicodeTables}.

(** A reference with neither scheme, host, user nor opaque part, resolved
    against a base that has a host, has the scheme, the user and the host
    of the base. *)
Lemma ResolveReference_site (base u : url.URL) :
  url.Scheme u = EmptyString -> url.Host u = EmptyString ->
  url.User u = None -> url.Opaque u = EmptyString ->
  url.Opaque base = EmptyString ->
  url.Scheme (url.ResolveReference base u) = url.Scheme base
  /\ url.Opaque (url.ResolveReference base u) = EmptyString
  /\ url.User (url.ResolveReference base u) = url.User base
  /\ url.Host (url.ResolveReference base u) = url.Host base.
Proof.
  intros Hs Hh Hu Ho Hb. unfold url.ResolveReference.
  rewrite Hs, Hh, Hu, Ho, Hb. cbn [String.eqb url.nonEmpty negb orb url.isSome].
  rewrite Bool.andb_false_r.
  repeat match goal with
         | |- context [url.setPath_ ?x ?p] =>
             let F := fresh "F" in
             destruct (setPath__fields x p) as (-> & -> & -> & ->)
         end.
  destruct ((url.Path u =? EmptyString) && negb (url.ForceQuery u)
            && (url.RawQuery u =? EmptyString));
    [destruct (url.Fragment u =? EmptyString)|]; cbn; auto.
Qed.

(** X11.  A reference that names neither a scheme nor a host (nor a
    user), an absolute path or a relative one, resolved against a target
    that has a scheme and a host, gives a URL on the site of the target:
    it begins with the scheme, the user information and the host of the
    target, as [String] writes them. *)
Theorem absolutize_path_stays_on_site :
  forall (raw baseStr : string) (u base : url.URL),
    raw <> EmptyString ->
    url.Parse raw = Ok u ->
    url.Scheme u = EmptyString -> url.Host u = EmptyString ->
    url.User u = None ->
    url.Parse baseStr = Ok base ->
    url.Scheme base <> EmptyString -> url.Host base <> EmptyString ->
    exists rest, absolutize raw baseStr = (siteOf base ++ rest, None).
Proof.
  intros raw baseStr u base Hr Hu Hs Hh Hn Hb Hbs Hbh.
  rewrite (absolutize_relative _ _ _ _ Hr Hu Hs Hh Hb).
  assert (Ho : url.Opaque u = EmptyString).
  { destruct (String.eqb_spec (url.Opaque u) EmptyString) as [E|E]; [exact E|].
    destruct (Parse_opaque _ _ Hu E) as [E' _]. contradiction. }
  assert (Hbo : url.Opaque base = EmptyString).
  { destruct (String.eqb_spec (url.Opaque base) EmptyString) as [E|E]; [exact E|].
    destruct (Parse_opaque _ _ Hb E) as [_ E']. contradiction. }
  destruct (ResolveReference_site base u Hs Hh Hn Ho Hbo) as (Rs & Ro & Ru & Rh).
  destruct (URL_String_site (url.ResolveReference base u)) as [rest E];
    [now rewrite Rs|exact Ro|now rewrite Rh|].
  exists rest. rewrite E. unfold siteOf. now rewrite Rs, Ru, Rh.
Qed.

End SiteClaim.

Lemma absolutize_path_stays_on_site_witness :
  exists rest,
    @absolutize asciiTables "../img/a.png" "https://me@example.com/shop/x?q=1"
    = ("https://me@example.com" ++ rest, None).
Proof.
  refine (@absolutize_path_stays_on_site asciiTables "../img/a.png"
            "https://me@example.com/shop/x?q=1"
            (url.setPathFields "../img/a.png" EmptyString url.emptyURL)
            (url.setQuery false "q=1"
               (url.setPathFields "/shop/x" EmptyString
                  (url.setHost "example.com"
                     (url.setUser (Some {| url.username := "me";
                                           url.password := EmptyString;
                                           url.passwordSet := false |})
                        (url.setScheme "https" url.emptyURL)))))
            _ _ _ _ _ _ _ _);
    solve [discriminate | vm_compute; reflexivity].
Defined.

(** ** The render input of a route, from the page of its target *)

Section RenderInput.
Context `{UnicodeTables} `{Environment}.

(** X12.  When the target answers and its page parses, the render input
    of the route is made of the last [og:title], [og:description] and
    [og:image] contents of the first 2 MiB of the page: the title and the
    description as they are, the defaults [UniGoods] and [UniGoods link]
    standing in for an empty one, and the image resolved against the
    target, the global fallback image standing in for an empty one.  An
    extracted value is never replaced by a configured one. *)
Theorem routePage_of_document :
  forall (cfg : Config) (p to body : string) (doc : xhtml.Node),
    httpGet to = Ok body ->
    htmlParse (limit 2097152 body) = Ok doc ->
    let title := last (map metaContent (tagged "og:title" doc)) EmptyString in
    let description :=
      last (map metaContent (tagged "og:description" doc)) EmptyString in
    let image := last (map metaContent (tagged "og:image" doc)) EmptyString in
    routePage cfg p to
    = (cleanRoutePath p, to,
       mkOG (orDefault title "UniGoods")
            (orDefault description "UniGoods link")
            (if orDefault image (GlobalOG cfg) =? EmptyString then EmptyString
             else resolve (orDefault image (GlobalOG cfg)) to)).
Proof.
  intros cfg p to body doc Hget Hdoc title description image.
  rewrite routePage_eq. unfold fetchOG, parseOGHTML. rewrite Hget, Hdoc.
  cbn [fst]. f_equal.
  pose proof (f_field "og:title" doc emptyOG) as Et.
  pose proof (f_field "og:description" doc emptyOG) as Ed.
  pose proof (f_field "og:image" doc emptyOG) as Ei.
  cbn [fieldOf String.eqb Ascii.eqb Bool.eqb andb] in Et, Ed, Ei.
  specialize (Et ltac:(simpl; auto)).
  specialize (Ed ltac:(simpl; auto)).
  specialize (Ei ltac:(simpl; auto)).
  change (Title emptyOG) with EmptyString in Et.
  change (Description emptyOG) with EmptyString in Ed.
  change (Image emptyOG) with EmptyString in Ei.
  fold title in Et. fold description in Ed. fold image in Ei.
  assert (At := applyFallbacks_Title cfg to (f doc emptyOG)).
  assert (Ad := applyFallbacks_Description cfg to (f doc emptyOG)).
  assert (Ai := applyFallbacks_Image cfg to (f doc emptyOG)).
  unfold fallbackImage in Ai.
  rewrite Et in At. rewrite Ed in Ad. rewrite Ei in Ai.
  destruct (applyFallbacks cfg to (f doc emptyOG)) as [t d i].
  cbn [Title Description Image] in At, Ad, Ai.
  subst t d i. unfold orDefault. clearbody title description image.
  destruct (String.eqb_spec image EmptyString) as [->|Ei'];
    cbn [andb String.eqb]; [|reflexivity].
  destruct (String.eqb_spec (GlobalOG cfg) EmptyString) as [Eg|Eg];
    cbn [negb]; [reflexivity|].
  apply String.eqb_neq in Eg. now rewrite Eg.
Qed.

(** X13.  A target that cannot be fetched, or whose page does not parse,
    does not stop the route: its page is rendered from the defaults, with
    the global fallback image resolved against the target when one is
    configured and no image otherwise. *)
Theorem routePage_without_document :
  forall (cfg : Config) (p to : string),
    (forall body, httpGet to = Ok body ->
                  exists e, htmlParse (limit 2097152 body) = Err e) ->
    routePage cfg p to
    = (cleanRoutePath p, to,
       mkOG "UniGoods" "UniGoods link"
            (if GlobalOG cfg =? EmptyString then EmptyString
             else resolve (GlobalOG cfg) to)).
Proof.
  intros cfg p to Hfail. rewrite routePage_eq.
  assert (E : fst (fetchOG to) = emptyOG).
  { unfold fetchOG, parseOGHTML. destruct (httpGet to) as [body|e]; [|reflexivity].
    destruct (Hfail body eq_refl) as [e ->]. reflexivity. }
  rewrite E. f_equal.
  assert (At := applyFallbacks_Title cfg to emptyOG).
  assert (Ad := applyFallbacks_Description cfg to emptyOG).
  assert (Ai := applyFallbacks_Image cfg to emptyOG).
  unfold fallbackImage in Ai.
  destruct (applyFallbacks cfg to emptyOG) as [t d i].
  cbn [Title Description Image emptyOG String.eqb andb] in At, Ad, Ai.
  subst t d i.
  destruct (String.eqb_spec (GlobalOG cfg) EmptyString) as [Eg|Eg];
    cbn [negb]; [reflexivity|].
  apply String.eqb_neq in Eg. now rewrite Eg.
Qed.

End RenderInput.

Lemma routePage_of_document_witness :
  @routePage asciiTables
     (serving (documentWith
                 [metaTag [("property", "og:title"); ("content", "Old")];
                  metaTag [("name", "og:title"); ("content", " Shop ")]]))
     (Build_Config EmptyString "/og.png" EmptyString []) "shop/"
     "https://example.com/a"
  = ("/shop", "https://example.com/a",
     mkOG "Shop" "UniGoods link" "https://example.com/og.png").
Proof.
  rewrite (@routePage_of_document asciiTables
             (serving (documentWith
                         [metaTag [("property", "og:title"); ("content", "Old")];
                          metaTag [("name", "og:title"); ("content", " Shop ")]]))
             (Build_Config EmptyString "/og.png" EmptyString []) "shop/"
             "https://example.com/a" EmptyString
             (documentWith
                [metaTag [("property", "og:title"); ("content", "Old")];
                 metaTag [("name", "og:title"); ("content", " Shop ")]])
             eq_refl eq_refl).
  vm_compute. reflexivity.
Defined.

Lemma routePage_without_document_witness :
  @routePage asciiTables offline
     (Build_Config EmptyString "/og.png" EmptyString []) "shop"
     "https://example.com/a"
  = ("/shop", "https://example.com/a",
     mkOG "UniGoods" "UniGoods link" "https://example.com/og.png").
Proof.
  rewrite (@routePage_without_document asciiTables offline
             (Build_Config EmptyString "/og.png" EmptyString []) "shop"
             "https://example.com/a").
  - vm_compute. reflexivity.
  - intros body Hb. discriminate Hb.
Defined.

(** ** The run: the CNAME file and the pages of the routes *)

Section Outputs.
Context `{UnicodeTables} `{Environment}.

Lemma routeEffects_eq (cfg : Config) (outDir p to : string) :
  routeEffects cfg outDir (p, to)
  = [MkdirAll (filepath.Join (filepath.Dir outDir)
                 (strings.TrimPrefix (cleanRoutePath p) "/"));
     WriteFile (filepath.Join
                  (filepath.Join (filepath.Dir outDir)
                     (strings.TrimPrefix (cleanRoutePath p) "/"))
                  "index.html")
       (buildHTML (cleanRoutePath p) to
          (applyFallbacks cfg to (fst (fetchOG to))))].
Proof. unfold routeEffects. now rewrite routePage_eq. Qed.

(** X14.  The run writes the file [CNAME] of the output directory exactly
    when the configured name is not empty once trimmed.  The file holds
    the configured name as it is written in the configuration, the white
    space at its ends included, and a line feed; it is the first thing
    the run writes. *)
Theorem main_writes_CNAME :
  forall (cfg : Config) (outDir data : string),
    (In (WriteFile (filepath.Join (filepath.Dir outDir) "CNAME") data)
        (main cfg outDir)
     <-> strings.TrimSpace (CNAME cfg) <> EmptyString
         /\ data = CNAME cfg ++ nl)
    /\ (strings.TrimSpace (CNAME cfg) <> EmptyString ->
        exists rest,
          main cfg outDir
          = WriteFile (filepath.Join (filepath.Dir outDir) "CNAME")
                      (CNAME cfg ++ nl) :: rest).
Proof.
  intros cfg outDir data. split.
  - unfold main. rewrite !in_app_iff, in_flat_map. split.
    + intros [Hc|[((p & to) & _ & Hr)|Hn]].
      * destruct (String.eqb_spec (strings.TrimSpace (CNAME cfg)) EmptyString)
          as [E|E]; simpl in Hc; [contradiction|].
        destruct Hc as [E'|[]]. injection E' as <-. auto.
      * rewrite routeEffects_eq in Hr. simpl in Hr.
        destruct Hr as [E|[E|[]]]; discriminate E.
      * destruct (strings.TrimSpace (DefaultRedirect cfg) =? EmptyString);
          simpl in Hn; [contradiction|].
        destruct Hn as [E|[]]. discriminate E.
    + intros [Ht ->]. left. apply String.eqb_neq in Ht. rewrite Ht.
      simpl. auto.
  - intros Ht. unfold main. apply String.eqb_neq in Ht. rewrite Ht.
    cbn [negb app]. eexists. reflexivity.
Qed.

(** X15.  The pages of the run are those of the configured routes: a file
    [index.html] is written to a directory exactly when the directory is
    that of a configured route and the text is the page the renderer gives
    for the normalised key, the target and the metadata of the route after
    the fallbacks; the directories the run makes are those of the routes;
    and the run makes two calls for each route, one for the CNAME file
    and one for the 404 page when they are written, and no other. *)
Theorem main_route_pages :
  forall (cfg : Config) (outDir : string) (dir : filepath.path) (page : string),
    (In (WriteFile (filepath.Join dir "index.html") page) (main cfg outDir)
     <-> exists p to,
           In (p, to) (Routes cfg)
           /\ dir = filepath.Join (filepath.Dir outDir)
                      (strings.TrimPrefix (cleanRoutePath p) "/")
           /\ page = buildHTML (cleanRoutePath p) to
                       (applyFallbacks cfg to (fst (fetchOG to))))
    /\ (In (MkdirAll dir) (main cfg outDir)
        <-> exists p to,
              In (p, to) (Routes cfg)
              /\ dir = filepath.Join (filepath.Dir outDir)
                         (strings.TrimPrefix (cleanRoutePath p) "/"))
    /\ List.length (main cfg outDir)
       = (if strings.TrimSpace (CNAME cfg) =? EmptyString then 0 else 1)
         + 2 * List.length (Routes cfg)
         + (if strings.TrimSpace (DefaultRedirect cfg) =? EmptyString
            then 0 else 1).
Proof.
  intros cfg outDir dir page. unfold main. split; [|split].
  - rewrite !in_app_iff, in_flat_map. split.
    + intros [Hc|[((p & to) & Hin & Hr)|Hn]].
      * destruct (strings.TrimSpace (CNAME cfg) =? EmptyString);
          simpl in Hc; [contradiction|].
        destruct Hc as [E|[]]. discriminate E.
      * rewrite routeEffects_eq in Hr. simpl in Hr.
        destruct Hr as [E|[E|[]]]; [discriminate E|].
        injection E as <- <-. exists p, to. auto.
      * destruct (strings.TrimSpace (DefaultRedirect cfg) =? EmptyString);
          simpl in Hn; [contradiction|].
        destruct Hn as [E|[]]. discriminate E.
    + intros (p & to & Hin & -> & ->). right; left. exists (p, to).
      split; [exact Hin|]. rewrite routeEffects_eq. simpl. auto.
  - rewrite !in_app_iff, in_flat_map. split.
    + intros [Hc|[((p & to) & Hin & Hr)|Hn]].
      * destruct (strings.TrimSpace (CNAME cfg) =? EmptyString);
          simpl in Hc; [contradiction|].
        destruct Hc as [E|[]]. discriminate E.
      * rewrite routeEffects_eq in Hr. simpl in Hr.
        destruct Hr as [E|[E|[]]]; [|discriminate E].
        injection E as <-. exists p, to. auto.
      * destruct (strings.TrimSpace (DefaultRedirect cfg) =? EmptyString);
          simpl in Hn; [contradiction|].
        destruct Hn as [E|[]]. discriminate E.
    + intros (p & to & Hin & ->). right; left. exists (p, to).
      split; [exact Hin|]. rewrite routeEffects_eq. simpl. auto.
  - rewrite !length_app.
    assert (E : forall routes,
               List.length (flat_map (routeEffects cfg outDir) routes)
               = 2 * List.length routes).
    { induction routes as [|[p to] routes IH]; [reflexivity|].
      cbn [flat_map]. rewrite length_app, routeEffects_eq, IH. simpl. lia. }
    rewrite E.
    destruct (strings.TrimSpace (CNAME cfg) =? EmptyString),
      (strings.TrimSpace (DefaultRedirect cfg) =? EmptyString); simpl; lia.
Qed.

End Outputs.

Lemma main_writes_CNAME_witness :
  exists rest,
    @main asciiTables offline
      (Build_Config " shop.unigoods.im " EmptyString EmptyString []) "out"
    = WriteFile (filepath.Join (filepath.Dir "out") "CNAME")
                (" shop.unigoods.im " ++ nl) :: rest.
Proof.
  apply (proj2 (@main_writes_CNAME asciiTables offline
                  (Build_Config " shop.unigoods.im " EmptyString EmptyString [])
                  "out" EmptyString)).
  vm_compute. discriminate.
Defined.

Section Collision.
Context `{UnicodeTables} `{Environment}.

(** X16.  The empty key and the key ["/"] are two keys of one file: both
    routes write [index.html] in the output directory itself, and they
    write different pages, since the page of the empty key names the
    root [/] of the site and the page of ["/"] the bare origin.  Which of
    the two pages the file holds in the end depends on the order in which
    the routes are visited. *)
Theorem root_keys_share_a_file :
  forall (cfg : Config) (outDir to to' : string),
    exists page page',
      routeEffects cfg outDir (EmptyString, to)
      = [MkdirAll (filepath.Join (filepath.Dir outDir) EmptyString);
         WriteFile (filepath.Join
                      (filepath.Join (filepath.Dir outDir) EmptyString)
                      "index.html") page]
      /\ routeEffects cfg outDir ("/", to')
         = [MkdirAll (filepath.Join (filepath.Dir outDir) EmptyString);
            WriteFile (filepath.Join
                         (filepath.Join (filepath.Dir outDir) EmptyString)
                         "index.html") page']
      /\ page <> page'.
Proof.
  intros cfg outDir to to'.
  exists (buildHTML "/" to (applyFallbacks cfg to (fst (fetchOG to)))),
         (buildHTML EmptyString to'
            (applyFallbacks cfg to' (fst (fetchOG to')))).
  split; [apply routeEffects_eq|]. split; [apply routeEffects_eq|].
  intros E. rewrite !buildHTML_shape in E. apply pageShape_inj in E.
  - injection E as _ _ _ _ _ Ep _ _ _. discriminate Ep.
  - repeat constructor; apply EscapeString_markupFree.
Qed.

End Collision.

(** ** The run stops at the first call that fails *)

Section RunLaws.
Context {World : Type} `{os.FileSystem World}.

Lemma performAll_cons (e : effect) (es : list effect) (w : World) :
  performAll (e :: es) w
  = match perform e w with
    | (w', None) => performAll es w'
    | (w', Some err) => (w', Err err)
    end.
Proof.
  unfold performAll. cbn [Run.forEach]. unfold Run.bind at 1 2, Run.call.
  destruct (perform e w) as [w' [err|]]; reflexivity.
Qed.

Lemma performAll_app (a b : list effect) :
  forall w,
    performAll (a ++ b)%list w = Run.bind (performAll a) (fun _ => performAll b) w.
Proof.
  induction a as [|e a IH]; intros w; [reflexivity|].
  cbn [app]. unfold Run.bind. rewrite !performAll_cons.
  destruct (perform e w) as [w' [err|]]; [reflexivity|].
  rewrite IH. reflexivity.
Qed.

Lemma after_app (a b : list effect) (w : World) :
  after (a ++ b)%list w = after b (after a w).
Proof. apply fold_left_app. Qed.

(** What a sequence of calls under [must] comes to. *)
Lemma performAll_spec (es : list effect) :
  forall w,
    match performAll es w with
    | (w', Ok _) => allSucceed es w /\ w' = after es w
    | (w', Err err) =>
        exists pre x post,
          es = (pre ++ x :: post)%list
          /\ allSucceed pre w
          /\ snd (perform x (after pre w)) = Some err
          /\ w' = after (pre ++ [x])%list w
    end.
Proof.
  induction es as [|e es IH]; intros w; [simpl; auto|].
  rewrite performAll_cons.
  destruct (perform e w) as [w1 [err|]] eqn:E.
  - exists [], e, es. cbn [app after fold_left allSucceed]. rewrite E. auto.
  - specialize (IH w1).
    destruct (performAll es w1) as [w' [[]|err]].
    + destruct IH as [Hs ->]. cbn [allSucceed after fold_left].
      rewrite E. auto.
    + destruct IH as (pre & x & post & -> & Hs & Hx & ->).
      exists (e :: pre), x, post. cbn [app allSucceed after fold_left].
      rewrite E. auto.
Qed.

Lemma performAll_succeed (es : list effect) :
  forall w, allSucceed es w -> performAll es w = (after es w, Ok tt).
Proof.
  induction es as [|e es IH]; intros w Hs; [reflexivity|].
  rewrite performAll_cons. cbn [allSucceed] in Hs. destruct Hs as [He Hs].
  cbn [after fold_left].
  destruct (perform e w) as [w1 err]. cbn [fst snd] in *. subst err.
  now apply IH.
Qed.

Lemma performAll_one (e : effect) (w : World) :
  performAll [e] w = Run.bind (Run.call (perform e)) Run.must w.
Proof.
  rewrite performAll_cons. unfold Run.bind, Run.call, Run.must.
  now destruct (perform e w) as [w' [err|]].
Qed.

Lemma bind_congr (A B : Type) (m m' : Run.M World A)
      (k k' : A -> Run.M World B) :
  (forall w, m w = m' w) -> (forall a w, k a w = k' a w) ->
  forall w, Run.bind m k w = Run.bind m' k' w.
Proof.
  intros Hm Hk w. unfold Run.bind. rewrite Hm.
  destruct (m' w) as [w' [a|e]]; auto.
Qed.

Lemma forEach_flat_map (A : Type) (body : A -> Run.M World unit)
      (calls : A -> list effect) :
  (forall x w, body x w = performAll (calls x) w) ->
  forall l w, Run.forEach l body w = performAll (flat_map calls l) w.
Proof.
  intros Hb. induction l as [|x l IH]; intros w; [reflexivity|].
  cbn [Run.forEach flat_map]. rewrite performAll_app.
  apply bind_congr; auto.
Qed.

Context `{json.Decoder} `{UnicodeTables} `{Environment}.

(** The run makes the calls of [main], in their order, under [must]. *)
Lemma Run_main_performs (cfgPath outDir : string) (w : World) :
  Run.main cfgPath outDir w
  = match Run.loadConfig cfgPath w with
    | Err err => (w, Err err)
    | Ok cfg => performAll (main cfg outDir) w
    end.
Proof.
  unfold Run.main.
  change (Run.bind (Run.read (Run.loadConfig cfgPath)) ?k w)
    with (k (Run.loadConfig cfgPath w) w).
  cbv beta.
  destruct (Run.loadConfig cfgPath w) as [cfg|err]; [|reflexivity].
  change (Run.bind (Run.must (Run.errOf (Ok cfg))) ?k w) with (k tt w).
  cbv beta. unfold main. rewrite performAll_app. apply bind_congr.
  - intros w0.
    destruct (negb (strings.TrimSpace (CNAME cfg) =? EmptyString));
      [|reflexivity].
    symmetry. apply performAll_one.
  - intros _ w0. rewrite performAll_app. apply bind_congr.
    + apply forEach_flat_map. intros [p to] w1.
      unfold routeEffects, routePage. destruct (fetchOG to) as [og e].
      rewrite performAll_cons. unfold Run.bind at 1. unfold Run.call at 1.
      cbn [perform].
      destruct (os.MkdirAll _ w1) as [w2 [err|]]; [reflexivity|].
      symmetry. apply performAll_one.
    + intros _ w1.
      destruct (negb (strings.TrimSpace (DefaultRedirect cfg) =? EmptyString));
        [|reflexivity].
      symmetry. apply performAll_one.
Qed.

(** X17.  A run that cannot read or decode its configuration ends with
    the error and leaves the world as it found it.  Otherwise it makes
    the file-system calls of [main] in their order and ends at the first
    that fails, with its error: the calls before it succeeded, the calls
    after it are not made.  It ends normally only when every call
    succeeded. *)
Theorem run_stops_at_the_first_failure :
  forall (cfgPath outDir : string) (w : World),
    match Run.loadConfig cfgPath w with
    | Err err => Run.main cfgPath outDir w = (w, Err err)
    | Ok cfg =>
        match Run.main cfgPath outDir w with
        | (w', Ok _) =>
            allSucceed (main cfg outDir) w /\ w' = after (main cfg outDir) w
        | (w', Err err) =>
            exists pre x post,
              main cfg outDir = (pre ++ x :: post)%list
              /\ allSucceed pre w
              /\ snd (perform x (after pre w)) = Some err
              /\ w' = after (pre ++ [x])%list w
        end
    end.
Proof.
  intros cfgPath outDir w. rewrite Run_main_performs.
  destruct (Run.loadConfig cfgPath w) as [cfg|err]; [|reflexivity].
  apply performAll_spec.
Qed.

(** X18.  When the configuration loads and no call of the file system
    fails, the run ends normally after the calls of [main]: the pages of
    all the routes are written, whether their targets could be fetched or
    not, since the error of a fetch is logged and never given to
    [must]. *)
Theorem run_completes_when_the_calls_succeed :
  forall (cfgPath outDir : string) (w : World) (cfg : Config),
    Run.loadConfig cfgPath w = Ok cfg ->
    allSucceed (main cfg outDir) w ->
    Run.main cfgPath outDir w = (after (main cfg outDir) w, Ok tt)
    /\ forall p to,
         In (p, to) (Routes cfg) ->
         In (WriteFile
               (filepath.Join
                  (filepath.Join (filepath.Dir outDir)
                     (strings.TrimPrefix (cleanRoutePath p) "/"))
                  "index.html")
               (buildHTML (cleanRoutePath p) to
                  (applyFallbacks cfg to (fst (fetchOG to)))))
            (main cfg outDir).
Proof.
  intros cfgPath outDir w cfg Hcfg Hs. split.
  - rewrite Run_main_performs, Hcfg. now apply performAll_succeed.
  - intros p to Hin. now apply main_writes_every_route.
Qed.

End RunLaws.

Lemma run_completes_when_the_calls_succeed_witness :
  @Run.main (list effect) recording
     (decodingTo (Build_Config "shop.unigoods.im" EmptyString EmptyString
                               [("a", "https://example.com/")]))
     asciiTables offline "routes.json" "." []
  = (@after (list effect) recording
       (@main asciiTables offline
          (Build_Config "shop.unigoods.im" EmptyString EmptyString
                        [("a", "https://example.com/")]) ".") [],
     Ok tt).
Proof.
  refine (proj1
    (@run_completes_when_the_calls_succeed (list effect) recording
       (decodingTo (Build_Config "shop.unigoods.im" EmptyString EmptyString
                                 [("a", "https://example.com/")]))
       asciiTables offline "routes.json" "." []
       (Build_Config "shop.unigoods.im" EmptyString EmptyString
                     [("a", "https://example.com/")]) _ _)).
  - reflexivity.
  - vm_compute. auto.
Defined.

(** ** The models against documented behaviour *)

(** The normal examples of RFC 3986, section 5.4.1, and some of the
    abnormal ones of section 5.4.2. *)
Example rfc3986_reference_resolution :
  map (resolved "http://a/b/c/d;p?q")
      ["g:h"; "g"; "./g"; "g/"; "/g"; "//g"; "?y"; "g?y"; "#s"; "g#s";
       "g?y#s"; ";x"; "g;x"; "g;x?y#s"; ""; "."; "./"; ".."; "../";
       "../g"; "../.."; "../../"; "../../g"; "../../../g"; "/./g";
       "/../g"; "g."; ".g"; "g.."; "..g"; "./../g"; "./g/."; "g/./h";
       "g/../h"; "g;x=1/./y"; "g;x=1/../y"]
  = ["g:h"; "http://a/b/c/g"; "http://a/b/c/g"; "http://a/b/c/g/";
     "http://a/g"; "http://g"; "http://a/b/c/d;p?y"; "http://a/b/c/g?y";
     "http://a/b/c/d;p?q#s"; "http://a/b/c/g#s"; "http://a/b/c/g?y#s";
     "http://a/b/c/;x"; "http://a/b/c/g;x"; "http://a/b/c/g;x?y#s";
     "http://a/b/c/d;p?q"; "http://a/b/c/"; "http://a/b/c/"; "http://a/b/";
     "http://a/b/"; "http://a/b/g"; "http://a/"; "http://a/"; "http://a/g";
     "http://a/g"; "http://a/g"; "http://a/g"; "http://a/b/c/g.";
     "http://a/b/c/.g"; "http://a/b/c/g.."; "http://a/b/c/..g";
     "http://a/b/g"; "http://a/b/c/g/"; "http://a/b/c/g/h"; "http://a/b/c/h";
     "http://a/b/c/g;x=1/y"; "http://a/b/c/y"].
Proof. vm_compute. reflexivity. Qed.

Example url_parse_and_print :
  map reparse
      ["HTTP://Example.com/a b?x=1#f"; ":"; "//cdn.x.com/i.png";
       "mailto:a@b.c"; "http://user:pa%20ss@[::1]:80/p%2Fq"; "a/b:c"; "a:b/c";
       "1a:b"; "http://exa mple.com/"; "http://x.com/%zz";
       "file:///etc/passwd"; "http:/a"; "///three"; "http://x.com?"; "#"]
  = ["http://Example.com/a%20b?x=1#f"; "!"; "//cdn.x.com/i.png";
     "mailto:a@b.c"; "http://user:pa%20ss@[::1]:80/p%2Fq"; "a/b:c"; "a:b/c";
     "!"; "!"; "!"; "file:///etc/passwd"; "http:/a"; "///three";
     "http://x.com?"; ""].
Proof. vm_compute. reflexivity. Qed.

(** Escapes are kept as they were written when they are valid, the path
    is not cleaned by parsing, and malformed escapes, ports and user
    information are refused. *)
Example url_escapes_and_errors :
  map reparse
      ["http://www.google.com/file%20one%26two";
       "http://[fe80::1%25en0]:8080/";
       "http://www.google.com/?q=go+language#foo%26bar";
       "http://www.google.com/?q=go+language#foo&bar";
       "http://host/!$&'()*+,;=:@[hello]";
       "http://a/b c?d e#f g";
       "%"; "http://[::1]:namedport"; "http://user^:pw@host/";
       "cache_object:foo/bar"; "*"; "http://x.com/a%2Fb/../c";
       "HtTp://J@Host:80/%41?#"; "?"; "http://host/a/./b"]
  = ["http://www.google.com/file%20one%26two";
     "http://[fe80::1%25en0]:8080/";
     "http://www.google.com/?q=go+language#foo%26bar";
     "http://www.google.com/?q=go+language#foo&bar";
     "http://host/!$&'()*+,;=:@[hello]";
     "http://a/b%20c?d e#f%20g";
     "!"; "!"; "!"; "!"; "*"; "http://x.com/a%2Fb/../c";
     "http://J@Host:80/%41?"; "?"; "http://host/a/./b"].
Proof. vm_compute. reflexivity. Qed.

(** [TrimSpace] removes a no-break space (C2 A0) and an ideographic space
    (E3 80 80) as it removes a blank, and keeps a lone C2. *)
Example TrimSpace_unicode :
  strings.TrimSpace
    (String "194" (String "160" (String " " ("a b" ++ String "194"
       (String "227" (String "128" (String "128" (String "009" EmptyString))))))))
  = "a b" ++ String "194" EmptyString.
Proof. reflexivity. Qed.

Example Sprintf_notices :
  fmt.Sprintf "a%sb%%%s" ["X"] = "aXb%%!s(MISSING)"
  /\ fmt.Sprintf "%s" ["X"; "Y"] = "X%!(EXTRA string=Y)"
  /\ fmt.operands tpl = Some 9
  /\ String.length tpl = 988.
Proof. repeat split; reflexivity. Qed.
